(** * ShadowRealm builtins: GetWrappedValue and the wrapped-function call

    A shallow embedding of
    [deps/v8/src/builtins/builtins-shadowrealm-gen.cc]:
    the two CodeStubAssembler builtins [ShadowRealmGetWrappedValue]
    (the value wrapper) and [CallWrappedFunction] (the call trampoline).

    The builtins run against the isolate's heap.  The heap is a bump
    allocator: a list of cells, an address is an index, allocation appends.
    Builtins are written in a small state-and-completion monad [CSA]; a
    completion is a normal value, a thrown exception object, or an abort. *)

From stdpp Require Import base numbers list.

(** ** Tagged values and heap cells *)

(** A realm handle ([Context] / [NativeContext]); compared for identity only. *)
Definition Context : Type := nat.

(** A heap address: the index of a cell in the heap. *)
Abbreviation Address := nat.

(** Read-only roots: oddballs, none of which is a JSReceiver. *)
Inductive RootIndex : Type :=
| kUndefinedValue
| kNullValue
| kTrueValue
| kFalseValue.

(** A tagged value: a small integer, a read-only root, or a pointer into the
    heap. *)
Inductive Object : Type :=
| Smi (value : Z)
| Root (index : RootIndex)
| HeapObject (address : Address).

Inductive MessageTemplate : Type :=
| kNotCallable
| kCallShadowRealmFunctionThrown
| kStackOverflow.

Inductive ErrorType : Type :=
| kTypeError
| kRangeError.

(** What the two builtins can tell apart about a heap object: whether it is
    a JSReceiver, whether its map is callable, whether it is a
    JSWrappedFunction (and then its two fields), and the scratch FixedArray
    of the call trampoline.  The context slot of a JSWrappedFunction is
    [None] between allocation and the store that initialises it. *)
Inductive HeapCell : Type :=
| HeapPrimitive
| FixedArray (elements : list Object)
| JSReceiver (is_callable : bool)
| JSError (type : ErrorType) (realm : Context) (message : MessageTemplate)
    (argument : option Object)
| JSWrappedFunction (wrapped_target_function : Object)
    (context : option Context).

#[global] Instance RootIndex_eq_dec : EqDecision RootIndex.
Proof. solve_decision. Defined.

#[global] Instance Object_eq_dec : EqDecision Object.
Proof. solve_decision. Defined.

#[global] Instance MessageTemplate_eq_dec : EqDecision MessageTemplate.
Proof. solve_decision. Defined.

#[global] Instance ErrorType_eq_dec : EqDecision ErrorType.
Proof. solve_decision. Defined.

#[global] Instance HeapCell_eq_dec : EqDecision HeapCell.
Proof. solve_decision. Defined.

(** ** The isolate and the builtin monad *)

(** Calls that leave the trampoline, in the order they are made. *)
Inductive Event : Type :=
| EvGetWrappedValue (context creation_context : Context) (value : Object)
| EvCall (context : Context) (target : Object) (pushed : list Object).

#[global] Instance Event_eq_dec : EqDecision Event.
Proof. solve_decision. Defined.

Record Isolate : Type := mkIsolate {
  heap : list HeapCell;
  (** the stack pointer is past the isolate's JS stack limit *)
  stack_overflow : bool;
  trace : list Event
}.

Inductive AbortReason : Type :=
| kUnreachable
| kWrongInstanceType.

Inductive Completion (A : Type) : Type :=
| Normal (value : A)
| Throw (exception : Object)
| Abort (reason : AbortReason).

Arguments Normal {A} value.
Arguments Throw {A} exception.
Arguments Abort {A} reason.

Definition CSA (A : Type) : Type := Isolate -> Completion A * Isolate.

Definition Return {A : Type} (a : A) : CSA A := fun s => (Normal a, s).

Definition Bind {A B : Type} (m : CSA A) (k : A -> CSA B) : CSA B :=
  fun s =>
    match m s with
    | (Normal a, s') => k a s'
    | (Throw e, s') => (Throw e, s')
    | (Abort r, s') => (Abort r, s')
    end.

Notation "'let*' x ':=' m 'in' k" := (Bind m (fun x => k))
  (at level 10, x binder, m at level 100, k at level 200).

(** [compiler::ScopedExceptionHandler]: an exception thrown inside the scope
    jumps to the handler label with the exception in its variable. *)
Definition ScopedExceptionHandler {A : Type} (body : CSA A)
    (handler : Object -> CSA A) : CSA A :=
  fun s =>
    match body s with
    | (Throw var_exception, s') => handler var_exception s'
    | r => r
    end.

Definition set_heap (h : list HeapCell) (s : Isolate) : Isolate :=
  mkIsolate h (stack_overflow s) (trace s).

Definition log_event (e : Event) (s : Isolate) : Isolate :=
  mkIsolate (heap s) (stack_overflow s) (trace s ++ [e]).

Definition Record_event (e : Event) : CSA unit :=
  fun s => (Normal tt, log_event e s).

(** New-space allocation: the new object takes the next free address. *)
Definition Allocate (c : HeapCell) : CSA Address :=
  fun s => (Normal (length (heap s)), set_heap (heap s ++ [c]) s).

(** ** Object-model predicates of the assembler *)

Definition LoadCell (h : list HeapCell) (v : Object) : option HeapCell :=
  match v with
  | HeapObject a => h !! a
  | _ => None
  end.

Definition TaggedIsSmi (v : Object) : bool :=
  match v with
  | Smi _ => true
  | _ => false
  end.

Definition IsJSReceiver (h : list HeapCell) (v : Object) : bool :=
  match LoadCell h v with
  | Some (JSReceiver _) | Some (JSError _ _ _ _)
  | Some (JSWrappedFunction _ _) => true
  | _ => false
  end.

(** The callable bit of the object's map.  The wrapped function map is
    callable: the builtin tests [IsJSWrappedFunction] inside the callable
    branch only. *)
Definition IsCallable (h : list HeapCell) (v : Object) : bool :=
  match LoadCell h v with
  | Some (JSReceiver c) => c
  | Some (JSWrappedFunction _ _) => true
  | _ => false
  end.

Definition IsJSWrappedFunction (h : list HeapCell) (v : Object) : bool :=
  match LoadCell h v with
  | Some (JSWrappedFunction _ _) => true
  | _ => false
  end.

(** [LoadObjectField(f, JSWrappedFunction::kWrappedTargetFunctionOffset)]. *)
Definition LoadWrappedTargetFunction (v : Object) : CSA Object :=
  fun s =>
    match LoadCell (heap s) v with
    | Some (JSWrappedFunction target _) => (Normal target, s)
    | _ => (Abort kWrongInstanceType, s)
    end.

(** [LoadObjectField<Context>(f, JSWrappedFunction::kContextOffset)]. *)
Definition LoadWrappedContext (v : Object) : CSA Context :=
  fun s =>
    match LoadCell (heap s) v with
    | Some (JSWrappedFunction _ (Some c)) => (Normal c, s)
    | _ => (Abort kWrongInstanceType, s)
    end.

Definition StoreWrappedTargetFunction (a : Address) (target : Object)
    : CSA unit :=
  fun s =>
    (Normal tt,
     set_heap (alter (fun c => match c with
                               | JSWrappedFunction _ ctx =>
                                   JSWrappedFunction target ctx
                               | c => c
                               end) a (heap s)) s).

Definition StoreWrappedContext (a : Address) (ctx : Context) : CSA unit :=
  fun s =>
    (Normal tt,
     set_heap (alter (fun c => match c with
                               | JSWrappedFunction target _ =>
                                   JSWrappedFunction target (Some ctx)
                               | c => c
                               end) a (heap s)) s).

(** Modelled from the spec: the texts of [MessageTemplate]
    (message-template.h) are not among the sources.  The failure raised for
    a throwing target is "a single opaque" error for which the original
    error is discarded entirely ("its identity, message, and realm are not
    forwarded"), so [kCallShadowRealmFunctionThrown] renders no argument.
    For the other templates the spec is silent and the operand the code
    passes is kept. *)
Definition MessageTemplate_argument (message : MessageTemplate)
    (arg : Object) : option Object :=
  match message with
  | kCallShadowRealmFunctionThrown => None
  | _ => Some arg
  end.

(** [ThrowTypeError(context, message, arg)]: a new TypeError object is
    created in [context] and thrown. *)
Definition ThrowTypeError {A : Type} (context : Context)
    (message : MessageTemplate) (arg : Object) : CSA A :=
  fun s =>
    (Throw (HeapObject (length (heap s))),
     set_heap (heap s ++ [JSError kTypeError context message
                            (MessageTemplate_argument message arg)]) s).

(** Modelled from the spec: [PerformStackCheck] and the runtime stack guard
    are not among the sources; the host's stack-budget check is
    "checkStackBudget() -> ok | raises StackOverflowError", the error being
    attributed to the context the check is made in. *)
Definition PerformStackCheck (context : Context) : CSA unit :=
  fun s =>
    if stack_overflow s
    then (Throw (HeapObject (length (heap s))),
          set_heap (heap s ++ [JSError kRangeError context kStackOverflow
                                 None]) s)
    else (Normal tt, s).

(** ** ShadowRealmGetWrappedValue *)

(** [AllocateJSWrappedFunction(context)]: a JSObject from the wrapped
    function map of [context]'s native context; the fields are written by
    the caller. *)
Definition AllocateJSWrappedFunction (context : Context) : CSA Address :=
  Allocate (JSWrappedFunction (Root kUndefinedValue) None).

Definition ShadowRealmGetWrappedValue (context creation_context : Context)
    (value : Object) : CSA Object :=
  fun s =>
    if TaggedIsSmi value then Return value s
    else if negb (IsJSReceiver (heap s) value) then Return value s
    else if IsCallable (heap s) value then
      (let* target :=
         (if IsJSWrappedFunction (heap s) value
          then LoadWrappedTargetFunction value
          else Return value) in
       let* wrapped := AllocateJSWrappedFunction creation_context in
       let* _ := StoreWrappedTargetFunction wrapped target in
       let* _ := StoreWrappedContext wrapped creation_context in
       Return (HeapObject wrapped)) s
    else ThrowTypeError context kNotCallable value s.

(** ** CallWrappedFunction *)

(** The arguments of the current JS frame ([CodeStubArguments]).  The actual
    arguments count includes the receiver: the scratch array of that length
    takes the receiver at index 0 and argument [i] at index [i + 1].  The
    count is an Int32 in the source and is modelled as a natural number. *)
Record CodeStubArguments : Type := mkArguments {
  GetReceiver : Object;
  arguments : list Object
}.

Definition GetLengthWithoutReceiver (args : CodeStubArguments) : nat :=
  length (arguments args).

Definition ActualArgumentsCount (args : CodeStubArguments) : nat :=
  S (length (arguments args)).

Definition AtIndex (args : CodeStubArguments) (index : nat) : Object :=
  default (Root kUndefinedValue) (arguments args !! index).

(** [AllocateFixedArray(PACKED_ELEMENTS, length)]: the elements are not
    initialised; the trampoline fills them before any use. *)
Definition AllocateFixedArray (length : nat) : CSA Address :=
  Allocate (FixedArray (replicate length (Smi 0))).

Definition StoreFixedArrayElement (array : Address) (index : nat)
    (value : Object) : CSA unit :=
  fun s =>
    (Normal tt,
     set_heap (alter (fun c => match c with
                               | FixedArray elements =>
                                   FixedArray (<[index := value]> elements)
                               | c => c
                               end) array (heap s)) s).

(** [BuildFastLoop(start, end, body, 1, IndexAdvanceMode::kPost)]: the body
    runs at [start], [start + 1], ... up to [end - 1]. *)
Fixpoint BuildFastLoop_from (count index : nat) (body : nat -> CSA unit)
    : CSA unit :=
  match count with
  | O => Return tt
  | S count' =>
      let* _ := body index in
      BuildFastLoop_from count' (index + 1) body
  end.

Definition BuildFastLoop (start end_ : nat) (body : nat -> CSA unit)
    : CSA unit :=
  BuildFastLoop_from (end_ - start) start body.

(** [FillFixedArrayWithValue(kind, array, from, to, root)]. *)
Definition FillFixedArrayWithValue (array : Address) (from to : nat)
    (value : Object) : CSA unit :=
  BuildFastLoop from to (fun index =>
    StoreFixedArrayElement array index value).

Definition CallBuiltin_ShadowRealmGetWrappedValue
    (context creation_context : Context) (value : Object) : CSA Object :=
  let* _ := Record_event (EvGetWrappedValue context creation_context value) in
  ShadowRealmGetWrappedValue context creation_context value.

Inductive CallResult : Type :=
| Returns (value : Object)
| Throws (exception : Object).

Section Trampoline.

(** [CodeStubAssembler::GetFunctionRealm(context, receiver, if_bailout)] is
    declared outside these sources: it yields the realm of a callable, or
    leaves through the bailout label ([None]). *)
Variable GetFunctionRealm :
  Context -> Object -> list HeapCell -> option Context.

(** The engine's call of a target, in a context, with the values pushed on
    the stack (the receiver first): it returns a value or throws an
    exception, and may change the heap. *)
Variable Call :
  Context -> Object -> list Object -> list HeapCell
  -> CallResult * list HeapCell.

(** [CallStub(CodeFactory::CallVarargs, context, target, args_count, length,
    elements)]: pushes the first [length] elements of the array on top of
    the [args_count] values already on the stack and calls the target. *)
Definition CallVarargs (context : Context) (target : Object)
    (length : nat) (elements : Address) : CSA Object :=
  fun s =>
    match heap s !! elements with
    | Some (FixedArray es) =>
        let pushed := take length es in
        let '(r, h') := Call context target pushed (heap s) in
        (match r with
         | Returns value => Normal value
         | Throws exception => Throw exception
         end,
         mkIsolate h' (stack_overflow s)
           (trace s ++ [EvCall context target pushed]))
    | _ => (Abort kWrongInstanceType, s)
    end.

Definition Unreachable {A : Type} : CSA A := fun s => (Abort kUnreachable, s).

Definition CallWrappedFunction (context : Context)
    (wrapped_function : Object) (args : CodeStubArguments) : CSA Object :=
  let argc := ActualArgumentsCount args in
  let* _ := PerformStackCheck context in
  let* target := LoadWrappedTargetFunction wrapped_function in
  (* CSA_DCHECK(IsCallable(target)) is a debug-build assertion and emits no
     code otherwise. *)
  let* caller_context := LoadWrappedContext wrapped_function in
  fun s =>
    match GetFunctionRealm caller_context target (heap s) with
    | None => Unreachable s
    | Some target_context =>
        (let receiver := GetReceiver args in
         let* wrapped_args := AllocateFixedArray argc in
         let* _ := FillFixedArrayWithValue wrapped_args 0 argc
                     (Root kUndefinedValue) in
         let* wrapped_receiver :=
           CallBuiltin_ShadowRealmGetWrappedValue caller_context
             target_context receiver in
         let* _ := StoreFixedArrayElement wrapped_args 0 wrapped_receiver in
         let* _ :=
           BuildFastLoop 0 (GetLengthWithoutReceiver args) (fun index =>
             let* wrapped_value :=
               CallBuiltin_ShadowRealmGetWrappedValue caller_context
                 target_context (AtIndex args index) in
             StoreFixedArrayElement wrapped_args (index + 1) wrapped_value) in
         let* result :=
           ScopedExceptionHandler
             (CallVarargs target_context target argc wrapped_args)
             (fun var_exception =>
                ThrowTypeError context kCallShadowRealmFunctionThrown
                  var_exception) in
         let* wrapped_result :=
           CallBuiltin_ShadowRealmGetWrappedValue caller_context
             caller_context result in
         Return wrapped_result) s
    end.

End Trampoline.

(** ** Reference definitions for the statements *)

(** The values the builtin returns unchanged: Smis and heap objects that
    are not JSReceivers. *)
Definition IsPrimitive (h : list HeapCell) (value : Object) : bool :=
  TaggedIsSmi value || negb (IsJSReceiver h value).

(** The target a new wrapper receives for [value]: the wrapped target of a
    JSWrappedFunction, the value itself otherwise. *)
Definition effective_target (h : list HeapCell) (value : Object) : Object :=
  match LoadCell h value with
  | Some (JSWrappedFunction target _) => target
  | _ => value
  end.

(** Marshalling in the spec's words: each value of the sequence is wrapped
    in turn, left to right, giving a sequence of the same length and order. *)
Fixpoint wrap_each (callerRealm targetRealm : Context)
    (values : list Object) : CSA (list Object) :=
  match values with
  | [] => Return []
  | value :: rest =>
      let* wrapped :=
        CallBuiltin_ShadowRealmGetWrappedValue callerRealm targetRealm
          value in
      let* wrapped_rest := wrap_each callerRealm targetRealm rest in
      Return (wrapped :: wrapped_rest)
  end.

(** Re-wrapping: each wrap of the chain takes the result of the previous
    one, with its own pair of realm arguments. *)
Fixpoint wrap_chain (realms : list (Context * Context)) (value : Object)
    : CSA Object :=
  match realms with
  | [] => Return value
  | (context, creation_context) :: rest =>
      let* wrapped :=
        ShadowRealmGetWrappedValue context creation_context value in
      wrap_chain rest wrapped
  end.

(** The isolate with the contents of the FixedArray at [array] replaced. *)
Definition with_array (array : Address) (elements : list Object)
    (s : Isolate) : Isolate :=
  set_heap (<[array := FixedArray elements]> (heap s)) s.

(** The isolate once the trampoline has allocated and filled its scratch
    array of [argc] elements. *)
Definition with_scratch_array (argc : nat) (s : Isolate) : Isolate :=
  set_heap (heap s ++ [FixedArray (replicate argc (Root kUndefinedValue))]) s.

(** The data-model invariant: the target of every wrapped function in the
    heap is a callable object that is not itself a wrapped function. *)
Definition wrapper_invariant (h : list HeapCell) : Prop :=
  forall a target ctx,
    h !! a = Some (JSWrappedFunction target ctx) ->
    IsCallable h target = true /\ IsJSWrappedFunction h target = false.

Definition is_wrapped_function_cell (c : HeapCell) : bool :=
  match c with
  | JSWrappedFunction _ _ => true
  | _ => false
  end.

(** Isolates in which wrapped functions come from [ShadowRealmGetWrappedValue]
    alone: a start without any, allocation of other objects, and runs of the
    builtin. *)
Inductive wrap_reachable : Isolate -> Prop :=
| reachable_start (s : Isolate) :
    forallb (fun c => negb (is_wrapped_function_cell c)) (heap s) = true ->
    wrap_reachable s
| reachable_allocate (s : Isolate) (c : HeapCell) :
    wrap_reachable s ->
    is_wrapped_function_cell c = false ->
    wrap_reachable (set_heap (heap s ++ [c]) s)
| reachable_wrap (s : Isolate) (context creation_context : Context)
    (value : Object) :
    wrap_reachable s ->
    wrap_reachable
      (snd (ShadowRealmGetWrappedValue context creation_context value s)).

(** Modelled from the spec: [CodeStubAssembler::GetFunctionRealm] is not
    among the sources.  The host query is "ownerRealmOf(callable) -> Realm";
    the resolution fails only when it "cannot determine callability of the
    target". *)
Definition GetFunctionRealm_spec (ownerRealmOf : Object -> Context)
    (context : Context) (target : Object) (h : list HeapCell)
    : option Context :=
  if IsCallable h target then Some (ownerRealmOf target) else None.

(** Reading the trace of one activation of the trampoline. *)
Definition is_EvCall (e : Event) : bool :=
  match e with
  | EvCall _ _ _ => true
  | _ => false
  end.

Definition is_EvGetWrappedValue (e : Event) : bool :=
  match e with
  | EvGetWrappedValue _ _ _ => true
  | _ => false
  end.

Definition count_wraps (events : list Event) : nat :=
  length (List.filter is_EvGetWrappedValue events).

Fixpoint before_call (events : list Event) : list Event :=
  match events with
  | [] => []
  | e :: rest => if is_EvCall e then [] else e :: before_call rest
  end.

Fixpoint after_call (events : list Event) : list Event :=
  match events with
  | [] => []
  | e :: rest => if is_EvCall e then rest else after_call rest
  end.

(** The events an activation adds to the trace it started with. *)
Definition new_events (before after : Isolate) : list Event :=
  drop (length (trace before)) (trace after).

(** A tagged value is valid in a heap when it is a Smi, a read-only root,
    or a pointer to an allocated object. *)
Definition IsValid (h : list HeapCell) (value : Object) : Prop :=
  match value with
  | HeapObject a => a < length h
  | _ => True
  end.

(** The values the builtin rejects: JSReceivers whose map is not callable. *)
Definition IsNonCallableObject (h : list HeapCell) (value : Object) : bool :=
  IsJSReceiver h value && negb (IsCallable h value).

(** What the target receives for a value of the caller: the value itself
    when it is a primitive, and otherwise a wrapped function, allocated
    since [h], whose context field is [realm] and whose target is the
    effective target of the value. *)
Definition marshalled (h h' : list HeapCell) (realm : Context)
    (value wrapped : Object) : Prop :=
  (IsPrimitive h value = true /\ wrapped = value)
  \/ (IsCallable h value = true
      /\ LoadCell h wrapped = None
      /\ LoadCell h' wrapped
         = Some (JSWrappedFunction (effective_target h value) (Some realm))).

Definition count_calls (events : list Event) : nat :=
  length (List.filter is_EvCall events).

(** ** Sample hosts and isolates *)

Definition realm_two (context : Context) (target : Object)
    (h : list HeapCell) : option Context := Some 2.

Definition call_returns (value : Object) (context : Context)
    (target : Object) (pushed : list Object) (h : list HeapCell)
    : CallResult * list HeapCell := (Returns value, h).

Definition call_throws (exception : Object) (context : Context)
    (target : Object) (pushed : list Object) (h : list HeapCell)
    : CallResult * list HeapCell := (Throws exception, h).

(** A function at address 0, a wrapper of it for realm 1 at address 1 and a
    plain object at address 2. *)
Definition sample_isolate : Isolate :=
  mkIsolate [JSReceiver true; JSWrappedFunction (HeapObject 0) (Some 1);
             JSReceiver false] false [].

(** * Properties *)

Example wrap_smi :
  ShadowRealmGetWrappedValue 1 2 (Smi 7) (mkIsolate [] false [])
  = (Normal (Smi 7), mkIsolate [] false []).
Proof. reflexivity. Qed.

Example wrap_function :
  ShadowRealmGetWrappedValue 1 2 (HeapObject 0)
    (mkIsolate [JSReceiver true] false [])
  = (Normal (HeapObject 1),
     mkIsolate [JSReceiver true; JSWrappedFunction (HeapObject 0) (Some 2)]
       false []).
Proof. reflexivity. Qed.

Example wrap_wrapped :
  ShadowRealmGetWrappedValue 1 3 (HeapObject 1)
    (mkIsolate [JSReceiver true; JSWrappedFunction (HeapObject 0) (Some 2)]
       false [])
  = (Normal (HeapObject 2),
     mkIsolate [JSReceiver true; JSWrappedFunction (HeapObject 0) (Some 2);
                JSWrappedFunction (HeapObject 0) (Some 3)] false []).
Proof. reflexivity. Qed.

Example wrap_plain_object :
  ShadowRealmGetWrappedValue 1 2 (HeapObject 0)
    (mkIsolate [JSReceiver false] false [])
  = (Throw (HeapObject 1),
     mkIsolate [JSReceiver false;
                JSError kTypeError 1 kNotCallable (Some (HeapObject 0))]
       false []).
Proof. reflexivity. Qed.


(** ** The heap under allocation *)

Lemma alter_last {A : Type} (f : A -> A) (l : list A) (x : A) :
  alter f (length l) (l ++ [x]) = l ++ [f x].
Proof.
  rewrite alter_app_r_alt by lia.
  by rewrite Nat.sub_diag.
Qed.

Lemma LoadCell_Some_lt (h : list HeapCell) (v : Object) (c : HeapCell) :
  LoadCell h v = Some c ->
  exists a, v = HeapObject a /\ h !! a = Some c /\ a < length h.
Proof.
  destruct v as [z|r|a]; simpl; try discriminate.
  intros Ha. exists a. split_and!; [done|done|].
  by eapply lookup_lt_Some.
Qed.

Lemma LoadCell_app (h l : list HeapCell) (v : Object) (c : HeapCell) :
  LoadCell h v = Some c -> LoadCell (h ++ l) v = Some c.
Proof.
  destruct v as [z|r|a]; simpl; try discriminate.
  apply lookup_app_l_Some.
Qed.

Lemma IsCallable_LoadCell (h : list HeapCell) (v : Object) :
  IsCallable h v = true ->
  LoadCell h v = Some (JSReceiver true) \/
  exists target ctx, LoadCell h v = Some (JSWrappedFunction target ctx).
Proof.
  unfold IsCallable.
  destruct (LoadCell h v) as [[| |[]| |]|]; try discriminate; eauto.
Qed.

Lemma IsCallable_app (h l : list HeapCell) (v : Object) :
  IsCallable h v = true -> IsCallable (h ++ l) v = true.
Proof.
  intros Hc. unfold IsCallable in *.
  destruct (LoadCell h v) as [c|] eqn:Hv; [|discriminate].
  by rewrite (LoadCell_app _ l _ _ Hv).
Qed.

Lemma IsCallable_IsJSReceiver (h : list HeapCell) (v : Object) :
  IsCallable h v = true -> IsJSReceiver h v = true /\ TaggedIsSmi v = false.
Proof.
  intros Hc. unfold IsJSReceiver.
  destruct (IsCallable_LoadCell _ _ Hc) as [Hv|(t & ctx & Hv)];
    rewrite Hv; split; try done; by destruct v.
Qed.

Lemma IsCallable_allocated (h : list HeapCell) (v : Object) :
  IsCallable h v = true -> exists a, v = HeapObject a /\ a < length h.
Proof.
  intros Hc.
  destruct (IsCallable_LoadCell _ _ Hc) as [Hv|(t & ctx & Hv)];
    apply LoadCell_Some_lt in Hv as (a & -> & _ & Hlt); eauto.
Qed.

Lemma IsJSWrappedFunction_app_allocated (h l : list HeapCell) (v : Object) :
  IsCallable h v = true ->
  IsJSWrappedFunction (h ++ l) v = IsJSWrappedFunction h v.
Proof.
  intros Hc. unfold IsJSWrappedFunction.
  destruct (IsCallable_LoadCell _ _ Hc) as [Hv|(t & ctx & Hv)];
    by rewrite (LoadCell_app _ l _ _ Hv), Hv.
Qed.

(** ** The three outcomes of ShadowRealmGetWrappedValue *)

Lemma wrap_primitive (context creation_context : Context) (value : Object)
    (s : Isolate) :
  TaggedIsSmi value = true \/ IsJSReceiver (heap s) value = false ->
  ShadowRealmGetWrappedValue context creation_context value s
  = (Normal value, s).
Proof.
  unfold ShadowRealmGetWrappedValue.
  intros [-> | ->]; [done|].
  by destruct (TaggedIsSmi value).
Qed.

Lemma wrap_callable (context creation_context : Context) (value : Object)
    (s : Isolate) :
  IsCallable (heap s) value = true ->
  ShadowRealmGetWrappedValue context creation_context value s
  = (Normal (HeapObject (length (heap s))),
     set_heap (heap s ++ [JSWrappedFunction
                            (effective_target (heap s) value)
                            (Some creation_context)]) s).
Proof.
  intros Hc.
  destruct (IsCallable_IsJSReceiver _ _ Hc) as [Hr Hsmi].
  unfold ShadowRealmGetWrappedValue.
  rewrite Hsmi, Hr, Hc. simpl.
  unfold effective_target, IsJSWrappedFunction, LoadWrappedTargetFunction,
    Bind, AllocateJSWrappedFunction, Allocate, StoreWrappedTargetFunction,
    StoreWrappedContext, Return, set_heap.
  destruct (IsCallable_LoadCell _ _ Hc) as [Hv|(t & ctx & Hv)];
    rewrite Hv; simpl; rewrite ?Hv; simpl; by rewrite !alter_last.
Qed.

Lemma wrap_not_callable (context creation_context : Context)
    (value : Object) (s : Isolate) :
  IsJSReceiver (heap s) value = true ->
  IsCallable (heap s) value = false ->
  ShadowRealmGetWrappedValue context creation_context value s
  = (Throw (HeapObject (length (heap s))),
     set_heap (heap s ++ [JSError kTypeError context kNotCallable
                            (Some value)]) s).
Proof.
  intros Hr Hc. unfold ShadowRealmGetWrappedValue.
  rewrite Hr, Hc.
  assert (TaggedIsSmi value = false) as ->.
  { destruct value; try done. }
  done.
Qed.

(** ** The wrapper invariant *)

Lemma wrapper_invariant_start (h : list HeapCell) :
  forallb (fun c => negb (is_wrapped_function_cell c)) h = true ->
  wrapper_invariant h.
Proof.
  intros Hall a target ctx Ha.
  rewrite forallb_forall in Hall.
  assert (In (JSWrappedFunction target ctx) h) as Hin.
  { apply list_elem_of_In. by eapply list_elem_of_lookup_2. }
  by apply Hall in Hin.
Qed.

Lemma wrapper_invariant_allocate (h : list HeapCell) (c : HeapCell) :
  wrapper_invariant h ->
  is_wrapped_function_cell c = false ->
  wrapper_invariant (h ++ [c]).
Proof.
  intros Hinv Hc a target ctx Ha.
  apply lookup_snoc_Some in Ha as [[_ Ha]|[_ ->]]; [|discriminate].
  destruct (Hinv _ _ _ Ha) as [Hcall Hnw]. split.
  - by apply IsCallable_app.
  - by rewrite IsJSWrappedFunction_app_allocated.
Qed.

Lemma wrapper_invariant_wrap (h : list HeapCell) (target : Object)
    (ctx : option Context) :
  wrapper_invariant h ->
  IsCallable h target = true ->
  IsJSWrappedFunction h target = false ->
  wrapper_invariant (h ++ [JSWrappedFunction target ctx]).
Proof.
  intros Hinv Hcall Hnw a target' ctx' Ha.
  assert (IsCallable h target' = true /\ IsJSWrappedFunction h target' = false)
    as [Hcall' Hnw'].
  { apply lookup_snoc_Some in Ha as [[_ Ha]|[_ [= <- <-]]]; [|done].
    by eapply Hinv. }
  split.
  - by apply IsCallable_app.
  - by rewrite IsJSWrappedFunction_app_allocated.
Qed.

Lemma effective_target_unwrapped (h : list HeapCell) (value : Object) :
  wrapper_invariant h ->
  IsCallable h value = true ->
  IsCallable h (effective_target h value) = true
  /\ IsJSWrappedFunction h (effective_target h value) = false.
Proof.
  intros Hinv Hc. unfold effective_target.
  destruct (IsCallable_LoadCell _ _ Hc) as [Hv|(t & ctx & Hv)]; rewrite Hv.
  - split; [done|]. unfold IsJSWrappedFunction. by rewrite Hv.
  - apply LoadCell_Some_lt in Hv as (a & -> & Ha & _). by eapply Hinv.
Qed.

Lemma effective_target_not_wrapped (h : list HeapCell) (value : Object) :
  IsJSWrappedFunction h value = false -> effective_target h value = value.
Proof.
  unfold IsJSWrappedFunction, effective_target.
  by destruct (LoadCell h value) as [[]|].
Qed.

Lemma wrap_outcomes (context creation_context : Context) (value : Object)
    (s : Isolate) :
  ShadowRealmGetWrappedValue context creation_context value s
    = (Normal value, s)
  \/ (IsCallable (heap s) value = true /\
      ShadowRealmGetWrappedValue context creation_context value s
      = (Normal (HeapObject (length (heap s))),
         set_heap (heap s ++ [JSWrappedFunction
                                (effective_target (heap s) value)
                                (Some creation_context)]) s))
  \/ ShadowRealmGetWrappedValue context creation_context value s
     = (Throw (HeapObject (length (heap s))),
        set_heap (heap s ++ [JSError kTypeError context kNotCallable
                               (Some value)]) s).
Proof.
  destruct (TaggedIsSmi value) eqn:Hsmi.
  { left. apply wrap_primitive. by left. }
  destruct (IsJSReceiver (heap s) value) eqn:Hr.
  2:{ left. apply wrap_primitive. by right. }
  destruct (IsCallable (heap s) value) eqn:Hc.
  - right; left. split; [done|]. by apply wrap_callable.
  - right; right. by apply wrap_not_callable.
Qed.

Lemma wrap_preserves_invariant (context creation_context : Context)
    (value : Object) (s : Isolate) :
  wrapper_invariant (heap s) ->
  wrapper_invariant
    (heap (snd (ShadowRealmGetWrappedValue context creation_context
                  value s))).
Proof.
  intros Hinv.
  destruct (wrap_outcomes context creation_context value s)
    as [-> | [[Hc ->] | ->]]; simpl.
  - done.
  - destruct (effective_target_unwrapped _ _ Hinv Hc).
    by apply wrapper_invariant_wrap.
  - by apply wrapper_invariant_allocate.
Qed.

Lemma wrap_reachable_invariant (s : Isolate) :
  wrap_reachable s -> wrapper_invariant (heap s).
Proof.
  induction 1 as [s Hstart | s c _ IH Hc | s context cc value _ IH].
  - by apply wrapper_invariant_start.
  - by apply wrapper_invariant_allocate.
  - by apply wrap_preserves_invariant.
Qed.

Lemma wrap_chain_target (f : Object) (realms : list (Context * Context))
    (final : Context * Context) (value : Object) (s : Isolate) :
  last realms = Some final ->
  IsCallable (heap s) f = true ->
  IsJSWrappedFunction (heap s) f = false ->
  IsCallable (heap s) value = true ->
  effective_target (heap s) value = f ->
  exists a s',
    wrap_chain realms value s = (Normal (HeapObject a), s')
    /\ heap s' !! a = Some (JSWrappedFunction f (Some (snd final)))
    /\ IsCallable (heap s') f = true
    /\ IsJSWrappedFunction (heap s') f = false.
Proof.
  revert value s.
  induction realms as [|[context creation_context] rest IH];
    intros value s Hlast Hf Hnw Hv Htarget; [done|].
  simpl. unfold Bind. rewrite wrap_callable by done. rewrite Htarget.
  set (s1 := set_heap _ s).
  assert (IsCallable (heap s1) f = true) as Hf1 by by apply IsCallable_app.
  assert (IsJSWrappedFunction (heap s1) f = false) as Hnw1.
  { subst s1. simpl. by rewrite IsJSWrappedFunction_app_allocated. }
  assert (heap s1 !! length (heap s)
          = Some (JSWrappedFunction f (Some creation_context))) as Hcell.
  { subst s1. simpl. by apply list_lookup_middle. }
  destruct rest as [|next rest].
  - injection Hlast as <-. simpl. by exists (length (heap s)), s1.
  - rewrite last_cons_cons in Hlast.
    apply (IH (HeapObject (length (heap s))) s1); try done.
    + unfold IsCallable, LoadCell. by rewrite Hcell.
    + unfold effective_target, LoadCell. by rewrite Hcell.
Qed.

(** ** Properties of the value wrapper *)

(** C2. Wrapped functions are created by [ShadowRealmGetWrappedValue] alone,
    so in every isolate reached that way the target of each wrapped function
    is a callable that is not itself a wrapped function.  Wrapping a wrapped
    function [w] whose target is [t] gives a new wrapped function whose
    target is [t], and [t] is not [w].  A chain of one or more wraps (so also
    every chain of depth two or more) starting from a callable [f] that is
    not a wrapped function ends in a wrapped function whose target is [f]. *)
Theorem C2_wrapper_target_is_never_a_wrapper (s : Isolate) :
  wrap_reachable s ->
  wrapper_invariant (heap s)
  /\ (forall context creation_context w t ctx,
        LoadCell (heap s) w = Some (JSWrappedFunction t ctx) ->
        exists s',
          ShadowRealmGetWrappedValue context creation_context w s
          = (Normal (HeapObject (length (heap s))), s')
          /\ heap s' !! length (heap s)
             = Some (JSWrappedFunction t (Some creation_context))
          /\ t <> w
          /\ IsJSWrappedFunction (heap s') t = false)
  /\ (forall realms final f,
        last realms = Some final ->
        IsCallable (heap s) f = true ->
        IsJSWrappedFunction (heap s) f = false ->
        exists a s',
          wrap_chain realms f s = (Normal (HeapObject a), s')
          /\ heap s' !! a = Some (JSWrappedFunction f (Some (snd final)))
          /\ IsJSWrappedFunction (heap s') f = false).
Proof.
  intros Hreach.
  pose proof (wrap_reachable_invariant s Hreach) as Hinv.
  split_and!; [done| |].
  - intros context creation_context w t ctx Hw.
    assert (IsCallable (heap s) w = true) as Hc.
    { unfold IsCallable. by rewrite Hw. }
    assert (effective_target (heap s) w = t) as Ht.
    { unfold effective_target. by rewrite Hw. }
    destruct (effective_target_unwrapped _ _ Hinv Hc) as [Htc Htw].
    rewrite Ht in Htc, Htw.
    eexists. rewrite wrap_callable, Ht by done.
    split_and!; [done| | |].
    + simpl. by apply list_lookup_middle.
    + intros ->. unfold IsJSWrappedFunction in Htw. by rewrite Hw in Htw.
    + simpl. by rewrite IsJSWrappedFunction_app_allocated.
  - intros realms final f Hlast Hf Hnw.
    destruct (wrap_chain_target f realms final f s) as (a & s' & ? & ? & ? & ?);
      try done.
    { by apply effective_target_not_wrapped. }
    by exists a, s'.
Qed.

Lemma C2_witness :
  wrap_reachable (mkIsolate [JSReceiver true] false [])
  /\ exists a s',
       wrap_chain [(1, 2); (2, 3); (3, 1)] (HeapObject 0)
         (mkIsolate [JSReceiver true] false [])
       = (Normal (HeapObject a), s')
       /\ heap s' !! a = Some (JSWrappedFunction (HeapObject 0) (Some 1))
       /\ IsJSWrappedFunction (heap s') (HeapObject 0) = false.
Proof.
  assert (wrap_reachable (mkIsolate [JSReceiver true] false [])) as Hreach.
  { by apply reachable_start. }
  split; [exact Hreach|].
  destruct (C2_wrapper_target_is_never_a_wrapper _ Hreach) as (_ & _ & Hchain).
  by apply (Hchain [(1, 2); (2, 3); (3, 1)] (3, 1) (HeapObject 0)).
Defined.

(** C4. A primitive (a Smi, or a heap object that is not a JSReceiver) is
    returned as it is, whatever the two realm arguments; the isolate, and so
    the heap, is left as it was: nothing is allocated. *)
Theorem C4_primitive_is_returned_unchanged
    (context creation_context : Context) (p : Object) (s : Isolate) :
  IsPrimitive (heap s) p = true ->
  ShadowRealmGetWrappedValue context creation_context p s = (Normal p, s).
Proof.
  unfold IsPrimitive. intros Hp. apply wrap_primitive.
  apply orb_true_iff in Hp as [Hp|Hp]; [by left|right].
  by apply negb_true_iff.
Qed.

Lemma C4_witness :
  IsPrimitive (heap sample_isolate) (Root kNullValue) = true
  /\ ShadowRealmGetWrappedValue 1 2 (Root kNullValue) sample_isolate
     = (Normal (Root kNullValue), sample_isolate).
Proof.
  split; [reflexivity|].
  apply C4_primitive_is_returned_unchanged. reflexivity.
Defined.

(** C6, as stated, fails: wrapping the function at address 0 with first realm
    argument 1 and second realm argument 2 gives a wrapped function whose
    context field is 2, not 1. *)
Lemma C6_counterexample :
  exists s',
    ShadowRealmGetWrappedValue 1 2 (HeapObject 0) sample_isolate
    = (Normal (HeapObject 3), s')
    /\ LoadWrappedContext (HeapObject 3) s' = (Normal 2, s')
    /\ fst (LoadWrappedContext (HeapObject 3) s') <> Normal 1.
Proof. eexists. split_and!; [reflexivity|reflexivity|discriminate]. Qed.

(** C6, amended. For every callable value the context field of the new
    wrapped function is [creation_context], the second realm argument (the
    realm the value is wrapped into), whatever the first realm argument
    is. *)
Theorem C6_wrapper_realm_is_creation_context
    (context creation_context : Context) (value : Object) (s : Isolate) :
  IsCallable (heap s) value = true ->
  exists wrapped s',
    ShadowRealmGetWrappedValue context creation_context value s
    = (Normal wrapped, s')
    /\ LoadWrappedContext wrapped s' = (Normal creation_context, s').
Proof.
  intros Hc. do 2 eexists. rewrite wrap_callable by done.
  split; [done|].
  unfold LoadWrappedContext, LoadCell. simpl.
  by rewrite list_lookup_middle.
Qed.

Lemma C6_witness :
  IsCallable (heap sample_isolate) (HeapObject 1) = true
  /\ exists wrapped s',
       ShadowRealmGetWrappedValue 5 7 (HeapObject 1) sample_isolate
       = (Normal wrapped, s')
       /\ LoadWrappedContext wrapped s' = (Normal 7, s').
Proof.
  split; [reflexivity|].
  apply C6_wrapper_realm_is_creation_context. reflexivity.
Defined.

(** C10. For a callable value (a wrapped function included, and whatever
    the realm arguments) the builtin returns a newly allocated wrapped
    function: its address was free before the call, so it is neither the
    value nor any object that existed; the objects that existed are left as
    they were; and wrapping the same value once more gives yet another
    object. *)
Theorem C10_wrap_allocates_a_fresh_wrapper
    (context creation_context : Context) (value : Object) (s : Isolate) :
  IsCallable (heap s) value = true ->
  exists wrapped s',
    ShadowRealmGetWrappedValue context creation_context value s
    = (Normal wrapped, s')
    /\ LoadCell (heap s) wrapped = None
    /\ IsJSWrappedFunction (heap s') wrapped = true
    /\ wrapped <> value
    /\ (forall v c, LoadCell (heap s) v = Some c ->
                    LoadCell (heap s') v = Some c /\ v <> wrapped)
    /\ forall context2 creation_context2,
         exists wrapped2 s'',
           ShadowRealmGetWrappedValue context2 creation_context2 value s'
           = (Normal wrapped2, s'')
           /\ wrapped2 <> wrapped
           /\ wrapped2 <> value.
Proof.
  intros Hc.
  destruct (IsCallable_allocated _ _ Hc) as (a & -> & Ha).
  do 2 eexists. rewrite wrap_callable by done.
  split_and!; [done| | | | |].
  - simpl. by apply lookup_ge_None.
  - unfold IsJSWrappedFunction, LoadCell. simpl.
    by rewrite list_lookup_middle.
  - intros [= <-]. lia.
  - intros v c Hv. split; [by apply LoadCell_app|].
    apply LoadCell_Some_lt in Hv as (b & -> & _ & Hb). intros [= ->]. lia.
  - intros context2 creation_context2. do 2 eexists.
    rewrite wrap_callable by (simpl; by apply IsCallable_app).
    simpl. rewrite length_app. simpl.
    split_and!; [done| |]; intros [= ?]; lia.
Qed.

Lemma C10_witness :
  IsCallable (heap sample_isolate) (HeapObject 1) = true
  /\ exists wrapped s',
       ShadowRealmGetWrappedValue 1 1 (HeapObject 1) sample_isolate
       = (Normal wrapped, s')
       /\ LoadCell (heap sample_isolate) wrapped = None
       /\ wrapped <> HeapObject 1.
Proof.
  split; [reflexivity|].
  destruct (C10_wrap_allocates_a_fresh_wrapper 1 1 (HeapObject 1)
              sample_isolate eq_refl)
    as (wrapped & s' & Hrun & Hfresh & _ & Hne & _).
  by exists wrapped, s'.
Defined.

(** ** The scratch array *)

Lemma alter_FixedArray (h : list HeapCell) (array : Address)
    (f : list Object -> list Object) (es : list Object) :
  h !! array = Some (FixedArray es) ->
  alter (fun c => match c with
                  | FixedArray elements => FixedArray (f elements)
                  | c => c
                  end) array h
  = <[array := FixedArray (f es)]> h.
Proof.
  intros Ha. apply list_eq. intros j.
  destruct (decide (array = j)) as [<-|Hne].
  - rewrite list_lookup_alter_eq, Ha. simpl.
    rewrite list_lookup_insert_eq; [done|]. by eapply lookup_lt_Some.
  - by rewrite list_lookup_alter_ne, list_lookup_insert_ne.
Qed.

Lemma StoreFixedArrayElement_array (array : Address) (index : nat)
    (value : Object) (es : list Object) (s : Isolate) :
  heap s !! array = Some (FixedArray es) ->
  StoreFixedArrayElement array index value s
  = (Normal tt, with_array array (<[index := value]> es) s).
Proof.
  intros Ha. unfold StoreFixedArrayElement, with_array.
  by rewrite (alter_FixedArray _ _ (fun es => <[index := value]> es) es).
Qed.

Lemma with_array_lookup (array : Address) (es : list Object) (s : Isolate) :
  array < length (heap s) ->
  heap (with_array array es s) !! array = Some (FixedArray es).
Proof. intros Hlt. simpl. by apply list_lookup_insert_eq. Qed.

Lemma with_array_with_array (array : Address) (es1 es2 : list Object)
    (s : Isolate) :
  with_array array es2 (with_array array es1 s) = with_array array es2 s.
Proof.
  unfold with_array, set_heap. simpl. by rewrite list_insert_insert_eq.
Qed.

Lemma with_array_id (array : Address) (es : list Object) (s : Isolate) :
  heap s !! array = Some (FixedArray es) -> with_array array es s = s.
Proof.
  intros Ha. unfold with_array, set_heap.
  rewrite list_insert_id by done. by destruct s.
Qed.

Lemma LoadCell_with_array (h : list HeapCell) (array : Address)
    (es0 es : list Object) (v : Object) :
  h !! array = Some (FixedArray es0) ->
  LoadCell (<[array := FixedArray es]> h) v = LoadCell h v
  \/ (exists es1, LoadCell h v = Some (FixedArray es1))
     /\ LoadCell (<[array := FixedArray es]> h) v = Some (FixedArray es).
Proof.
  intros Ha. destruct v as [z|r|a]; simpl; [by left|by left|].
  destruct (decide (array = a)) as [<-|Hne].
  - right. split; [by eexists|].
    apply list_lookup_insert_eq. by eapply lookup_lt_Some.
  - left. by apply list_lookup_insert_ne.
Qed.

Lemma predicates_with_array (h : list HeapCell) (array : Address)
    (es0 es : list Object) (v : Object) :
  h !! array = Some (FixedArray es0) ->
  IsJSReceiver (<[array := FixedArray es]> h) v = IsJSReceiver h v
  /\ IsCallable (<[array := FixedArray es]> h) v = IsCallable h v
  /\ effective_target (<[array := FixedArray es]> h) v
     = effective_target h v.
Proof.
  intros Ha. unfold IsJSReceiver, IsCallable, effective_target.
  destruct (LoadCell_with_array h array es0 es v Ha)
    as [-> | [[es1 Hv] ->]]; [done|].
  by rewrite Hv.
Qed.

(** The builtin neither reads nor writes the elements of a FixedArray: it
    runs the same with the scratch array in any state. *)
Lemma wrap_with_array (context creation_context : Context) (value : Object)
    (array : Address) (es0 es : list Object) (s : Isolate) :
  heap s !! array = Some (FixedArray es0) ->
  ShadowRealmGetWrappedValue context creation_context value
    (with_array array es s)
  = (fst (ShadowRealmGetWrappedValue context creation_context value s),
     with_array array es
       (snd (ShadowRealmGetWrappedValue context creation_context value s))).
Proof.
  intros Ha.
  assert (array < length (heap s)) as Hlt by by eapply lookup_lt_Some.
  destruct (predicates_with_array (heap s) array es0 es value Ha)
    as (Hr & Hc & Ht).
  destruct (TaggedIsSmi value) eqn:Hsmi.
  { rewrite !wrap_primitive by by left. done. }
  destruct (IsJSReceiver (heap s) value) eqn:Hrecv.
  2:{ rewrite !wrap_primitive; [done|by right|right]. simpl. by rewrite Hr. }
  destruct (IsCallable (heap s) value) eqn:Hcall.
  - rewrite !wrap_callable by (simpl; congruence). simpl.
    unfold with_array, set_heap. simpl.
    rewrite length_insert, Ht, insert_app_l by done. done.
  - rewrite !wrap_not_callable by (simpl; congruence). simpl.
    unfold with_array, set_heap. simpl.
    rewrite length_insert, insert_app_l by done. done.
Qed.

Lemma wrap_extends (context creation_context : Context) (value : Object)
    (s : Isolate) :
  exists cells,
    snd (ShadowRealmGetWrappedValue context creation_context value s)
    = set_heap (heap s ++ cells) s.
Proof.
  destruct (wrap_outcomes context creation_context value s)
    as [-> | [[_ ->] | ->]]; simpl; [exists []|by eexists..].
  unfold set_heap. rewrite app_nil_r. by destruct s.
Qed.

(** ** Marshalling a sequence of values *)

Lemma CallBuiltin_unfold (context creation_context : Context)
    (value : Object) (s : Isolate) :
  CallBuiltin_ShadowRealmGetWrappedValue context creation_context value s
  = ShadowRealmGetWrappedValue context creation_context value
      (log_event (EvGetWrappedValue context creation_context value) s).
Proof. done. Qed.

Lemma CallBuiltin_with_array (context creation_context : Context)
    (value : Object) (array : Address) (es0 es : list Object) (s : Isolate) :
  heap s !! array = Some (FixedArray es0) ->
  CallBuiltin_ShadowRealmGetWrappedValue context creation_context value
    (with_array array es s)
  = (fst (CallBuiltin_ShadowRealmGetWrappedValue context creation_context
            value s),
     with_array array es
       (snd (CallBuiltin_ShadowRealmGetWrappedValue context creation_context
               value s))).
Proof.
  intros Ha. rewrite !CallBuiltin_unfold.
  by rewrite <- (wrap_with_array _ _ _ array es0 es).
Qed.

Lemma CallBuiltin_extends (context creation_context : Context)
    (value : Object) (s : Isolate) :
  exists cells,
    snd (CallBuiltin_ShadowRealmGetWrappedValue context creation_context
           value s)
    = mkIsolate (heap s ++ cells) (stack_overflow s)
        (trace s ++ [EvGetWrappedValue context creation_context value]).
Proof.
  rewrite CallBuiltin_unfold.
  destruct (wrap_extends context creation_context value
              (log_event (EvGetWrappedValue context creation_context value)
                 s)) as [cells ->].
  by exists cells.
Qed.

Lemma CallBuiltin_outcomes (context creation_context : Context)
    (value : Object) (s : Isolate) :
  (exists wrapped,
      fst (CallBuiltin_ShadowRealmGetWrappedValue context creation_context
             value s) = Normal wrapped)
  \/ (IsJSReceiver (heap s) value = true
      /\ IsCallable (heap s) value = false
      /\ CallBuiltin_ShadowRealmGetWrappedValue context creation_context
           value s
         = (Throw (HeapObject (length (heap s))),
            mkIsolate
              (heap s ++ [JSError kTypeError context kNotCallable
                            (Some value)])
              (stack_overflow s)
              (trace s
               ++ [EvGetWrappedValue context creation_context value]))).
Proof.
  rewrite CallBuiltin_unfold.
  destruct (TaggedIsSmi value) eqn:Hsmi.
  { left. rewrite wrap_primitive by by left. by eexists. }
  destruct (IsJSReceiver (heap s) value) eqn:Hr.
  2:{ left. rewrite wrap_primitive by by right. by eexists. }
  destruct (IsCallable (heap s) value) eqn:Hc.
  - left. rewrite wrap_callable by done. by eexists.
  - right. by rewrite wrap_not_callable.
Qed.

Lemma IsJSReceiver_LoadCell (h : list HeapCell) (v : Object) :
  IsJSReceiver h v = true -> exists c, LoadCell h v = Some c.
Proof.
  unfold IsJSReceiver. destruct (LoadCell h v); [eauto|done].
Qed.

Lemma non_callable_app (h l : list HeapCell) (v : Object) :
  IsJSReceiver h v = true ->
  IsCallable h v = false ->
  IsJSReceiver (h ++ l) v = true /\ IsCallable (h ++ l) v = false.
Proof.
  intros Hr Hc. destruct (IsJSReceiver_LoadCell _ _ Hr) as [c Hv].
  unfold IsJSReceiver, IsCallable in *.
  rewrite Hv in Hr, Hc. by rewrite (LoadCell_app _ l _ _ Hv).
Qed.

Section Marshalling.

Variables callerRealm targetRealm : Context.

Lemma wrap_each_Normal (values wrapped : list Object) (s s1 : Isolate) :
  wrap_each callerRealm targetRealm values s = (Normal wrapped, s1) ->
  length wrapped = length values
  /\ exists cells,
       s1 = mkIsolate (heap s ++ cells) (stack_overflow s)
              (trace s
               ++ map (EvGetWrappedValue callerRealm targetRealm) values).
Proof.
  revert wrapped s.
  induction values as [|value rest IH]; intros wrapped s; simpl.
  - intros [= <- <-]. split; [done|]. exists [].
    rewrite !app_nil_r. by destruct s.
  - unfold Bind.
    destruct (CallBuiltin_extends callerRealm targetRealm value s)
      as [cells Hs'].
    destruct (CallBuiltin_ShadowRealmGetWrappedValue _ _ value s)
      as [[w|e|r] s']; simpl in Hs'; try discriminate.
    destruct (wrap_each _ _ rest s') as [[ws|e|r] s2] eqn:Hrest;
      try discriminate.
    intros [= <- <-].
    destruct (IH _ _ Hrest) as [Hlen [cells' ->]]. subst s'. simpl.
    split; [by rewrite Hlen|]. exists (cells ++ cells').
    by rewrite <- !app_assoc.
Qed.

Lemma wrap_each_Throw (values : list Object) (exception : Object)
    (s s1 : Isolate) :
  wrap_each callerRealm targetRealm values s = (Throw exception, s1) ->
  exists cells value k,
    exception = HeapObject (length (heap s ++ cells))
    /\ s1 = mkIsolate
              (heap s ++ cells
               ++ [JSError kTypeError callerRealm kNotCallable (Some value)])
              (stack_overflow s)
              (trace s
               ++ map (EvGetWrappedValue callerRealm targetRealm)
                    (take (S k) values))
    /\ values !! k = Some value.
Proof.
  revert s.
  induction values as [|value rest IH]; intros s; simpl; [done|].
  unfold Bind.
  destruct (CallBuiltin_outcomes callerRealm targetRealm value s)
    as [[w Hw] | (_ & _ & ->)].
  - destruct (CallBuiltin_extends callerRealm targetRealm value s)
      as [cells Hs'].
    destruct (CallBuiltin_ShadowRealmGetWrappedValue _ _ value s)
      as [c s']; simpl in Hw, Hs'; subst c s'.
    destruct (wrap_each _ _ rest _) as [[ws|e|r] s2] eqn:Hrest;
      try discriminate.
    intros [= <- <-].
    destruct (IH _ Hrest) as (cells' & v & k & -> & -> & Hk). simpl.
    exists (cells ++ cells'), v, (S k).
    by rewrite <- !app_assoc.
  - intros [= <- <-]. exists [], value, 0.
    by rewrite app_nil_r.
Qed.

Lemma wrap_each_no_Abort (values : list Object) (reason : AbortReason)
    (s : Isolate) :
  fst (wrap_each callerRealm targetRealm values s) <> Abort reason.
Proof.
  revert s. induction values as [|value rest IH]; intros s; simpl; [done|].
  unfold Bind.
  destruct (CallBuiltin_outcomes callerRealm targetRealm value s)
    as [[w Hw] | (_ & _ & ->)]; [|done].
  destruct (CallBuiltin_ShadowRealmGetWrappedValue _ _ value s)
    as [c s']; simpl in Hw; subst c.
  specialize (IH s').
  by destruct (wrap_each _ _ rest s') as [[ws|e|r] s2].
Qed.

Lemma wrap_each_rejects (values : list Object) (value : Object)
    (s : Isolate) :
  value ∈ values ->
  IsJSReceiver (heap s) value = true ->
  IsCallable (heap s) value = false ->
  exists exception s1,
    wrap_each callerRealm targetRealm values s = (Throw exception, s1).
Proof.
  revert s.
  induction values as [|first rest IH]; intros s Hin Hr Hc.
  { by apply elem_of_nil in Hin. }
  simpl. unfold Bind.
  destruct (CallBuiltin_outcomes callerRealm targetRealm first s)
    as [[w Hw] | (_ & _ & ->)]; [|by eauto].
  destruct (CallBuiltin_extends callerRealm targetRealm first s)
    as [cells Hs'].
  destruct (CallBuiltin_ShadowRealmGetWrappedValue _ _ first s)
    as [c s'] eqn:Hfirst; simpl in Hw, Hs'; subst c s'.
  apply elem_of_cons in Hin as [->|Hin].
  - exfalso.
    destruct (CallBuiltin_outcomes callerRealm targetRealm first s)
      as [[w' Hw'] | (_ & _ & Hthrow)].
    + rewrite CallBuiltin_unfold in Hfirst.
      destruct (IsJSReceiver_LoadCell _ _ Hr) as [c Hv].
      assert (TaggedIsSmi first = false) as Hsmi by by destruct first.
      rewrite wrap_not_callable in Hfirst by done. discriminate.
    + congruence.
  - destruct (non_callable_app _ cells _ Hr Hc) as [Hr' Hc'].
    destruct (IH (mkIsolate (heap s ++ cells) (stack_overflow s)
                    (trace s
                     ++ [EvGetWrappedValue callerRealm targetRealm first]))
                Hin Hr' Hc') as (e & s1 & ->).
    eauto.
Qed.

End Marshalling.

(** ** The loops of the trampoline *)

Lemma FillFixedArrayWithValue_from (array : Address) (value : Object)
    (count index : nat) (es : list Object) (s : Isolate) :
  heap s !! array = Some (FixedArray es) ->
  BuildFastLoop_from count index
    (fun index => StoreFixedArrayElement array index value) s
  = (Normal tt,
     with_array array (list_inserts index (replicate count value) es) s).
Proof.
  revert index es s.
  induction count as [|count IH]; intros index es s Ha; simpl.
  - by rewrite with_array_id.
  - unfold Bind. rewrite (StoreFixedArrayElement_array _ _ _ es) by done.
    assert (array < length (heap s)) as Hlt by by eapply lookup_lt_Some.
    rewrite (IH _ (<[index := value]> es)) by by apply with_array_lookup.
    rewrite with_array_with_array, Nat.add_1_r.
    by rewrite list_insert_inserts_lt by lia.
Qed.

Lemma FillFixedArrayWithValue_all (array : Address) (value : Object)
    (es : list Object) (s : Isolate) :
  heap s !! array = Some (FixedArray es) ->
  FillFixedArrayWithValue array 0 (length es) value s
  = (Normal tt, with_array array (replicate (length es) value) s).
Proof.
  intros Ha. unfold FillFixedArrayWithValue, BuildFastLoop.
  rewrite Nat.sub_0_r, (FillFixedArrayWithValue_from _ _ _ _ es) by done.
  rewrite <- (app_nil_r (replicate _ _)) at 1.
  by rewrite list_inserts_0_l by by rewrite length_replicate.
Qed.

Lemma BuildFastLoop_from_S (count index : nat) (body : nat -> CSA unit)
    (s : Isolate) :
  BuildFastLoop_from (S count) index body s
  = match body index s with
    | (Normal _, s') => BuildFastLoop_from count (index + 1) body s'
    | (Throw e, s') => (Throw e, s')
    | (Abort r, s') => (Abort r, s')
    end.
Proof. done. Qed.

Lemma wrap_each_cons (callerRealm targetRealm : Context) (value : Object)
    (rest : list Object) (s : Isolate) :
  wrap_each callerRealm targetRealm (value :: rest) s
  = match CallBuiltin_ShadowRealmGetWrappedValue callerRealm targetRealm
            value s with
    | (Normal wrapped, s') =>
        match wrap_each callerRealm targetRealm rest s' with
        | (Normal wrapped_rest, s2) => (Normal (wrapped :: wrapped_rest), s2)
        | (Throw e, s2) => (Throw e, s2)
        | (Abort r, s2) => (Abort r, s2)
        end
    | (Throw e, s') => (Throw e, s')
    | (Abort r, s') => (Abort r, s')
    end.
Proof. done. Qed.

(** One wrap-and-store step against a scratch array in any state. *)
Lemma wrap_and_store (context creation_context : Context) (value : Object)
    (array : Address) (index : nat) (es0 es : list Object) (s : Isolate) :
  heap s !! array = Some (FixedArray es0) ->
  (let* wrapped :=
     CallBuiltin_ShadowRealmGetWrappedValue context creation_context value in
   StoreFixedArrayElement array index wrapped) (with_array array es s)
  = match CallBuiltin_ShadowRealmGetWrappedValue context creation_context
            value s with
    | (Normal wrapped, s') =>
        (Normal tt, with_array array (<[index := wrapped]> es) s')
    | (Throw e, s') => (Throw e, with_array array es s')
    | (Abort r, s') => (Abort r, with_array array es s')
    end.
Proof.
  intros Ha. unfold Bind.
  rewrite (CallBuiltin_with_array _ _ _ _ es0) by done.
  destruct (CallBuiltin_extends context creation_context value s)
    as [cells Hs'].
  destruct (CallBuiltin_ShadowRealmGetWrappedValue _ _ value s)
    as [[w|e|r] s']; cbn [fst snd]; simpl in Hs'; [|done|done].
  assert (array < length (heap s')) as Hlt.
  { subst s'. simpl. rewrite length_app.
    apply lookup_lt_Some in Ha. lia. }
  rewrite (StoreFixedArrayElement_array _ _ _ es)
    by by apply with_array_lookup.
  by rewrite with_array_with_array.
Qed.

Section MarshalLoop.

Variables caller_context target_context : Context.
Variable args : CodeStubArguments.
Variable wrapped_args : Address.

Lemma AtIndex_middle (pre rest : list Object) (value : Object) :
  arguments args = pre ++ value :: rest ->
  AtIndex args (length pre) = value.
Proof.
  intros Hargs. unfold AtIndex.
  by rewrite Hargs, list_lookup_middle.
Qed.

(** The marshalling loop stores, one index after the other, what
    [wrap_each] computes for the arguments still to be wrapped; when a wrap
    throws, the loop is left with that exception. *)
Lemma marshal_loop (es0 : list Object) (rest pre es : list Object)
    (s : Isolate) :
  arguments args = pre ++ rest ->
  heap s !! wrapped_args = Some (FixedArray es0) ->
  match wrap_each caller_context target_context rest s with
  | (Normal wrapped, s1) =>
      BuildFastLoop_from (length rest) (length pre)
        (fun index =>
           let* wrapped_value :=
             CallBuiltin_ShadowRealmGetWrappedValue caller_context
               target_context (AtIndex args index) in
           StoreFixedArrayElement wrapped_args (index + 1) wrapped_value)
        (with_array wrapped_args es s)
      = (Normal tt,
         with_array wrapped_args
           (list_inserts (S (length pre)) wrapped es) s1)
  | (Throw exception, s1) =>
      exists es',
        BuildFastLoop_from (length rest) (length pre)
          (fun index =>
             let* wrapped_value :=
               CallBuiltin_ShadowRealmGetWrappedValue caller_context
                 target_context (AtIndex args index) in
             StoreFixedArrayElement wrapped_args (index + 1) wrapped_value)
          (with_array wrapped_args es s)
        = (Throw exception, with_array wrapped_args es' s1)
  | (Abort _, _) => True
  end.
Proof.
  revert pre es s.
  induction rest as [|value rest' IH]; intros pre es s Hargs Ha.
  { done. }
  cbn [length]. rewrite wrap_each_cons, BuildFastLoop_from_S.
  rewrite (AtIndex_middle _ _ _ Hargs).
  rewrite (wrap_and_store _ _ _ _ _ es0) by done.
  destruct (CallBuiltin_extends caller_context target_context value s)
    as [cells Hs'].
  destruct (CallBuiltin_ShadowRealmGetWrappedValue _ _ value s)
    as [[w|e|r] s'] eqn:Hcall; simpl in Hs'; [|by exists es|done].
  assert (heap s' !! wrapped_args = Some (FixedArray es0)) as Ha'.
  { subst s'. simpl. by apply lookup_app_l_Some. }
  specialize (IH (pre ++ [value]) (<[length pre + 1 := w]> es) s').
  rewrite length_app in IH. cbn [length] in IH.
  rewrite <- app_assoc in IH. specialize (IH Hargs Ha').
  destruct (wrap_each _ _ rest' s') as [[ws|e|r] s2]; [|done|done].
  rewrite IH. do 2 f_equal.
  rewrite Nat.add_1_r. cbn [list_inserts].
  by rewrite list_insert_inserts_lt by lia.
Qed.

End MarshalLoop.

(** ** The trampoline up to the call *)

Section TrampolineSteps.

Variable GetFunctionRealm :
  Context -> Object -> list HeapCell -> option Context.
Variable Call :
  Context -> Object -> list Object -> list HeapCell
  -> CallResult * list HeapCell.

Variables context caller_context target_context : Context.
Variables wrapped_function target : Object.
Variable args : CodeStubArguments.
Variable s : Isolate.

Hypothesis stack_ok : stack_overflow s = false.
Hypothesis wrapped_function_cell :
  LoadCell (heap s) wrapped_function
  = Some (JSWrappedFunction target (Some caller_context)).
Hypothesis target_realm :
  GetFunctionRealm caller_context target (heap s) = Some target_context.

(** Stack check, field loads, realm resolution, allocation and filling of
    the scratch array. *)
Lemma CallWrappedFunction_prologue :
  CallWrappedFunction GetFunctionRealm Call context wrapped_function args s
  = (let* wrapped_receiver :=
       CallBuiltin_ShadowRealmGetWrappedValue caller_context target_context
         (GetReceiver args) in
     let* _ := StoreFixedArrayElement (length (heap s)) 0 wrapped_receiver in
     let* _ :=
       BuildFastLoop 0 (GetLengthWithoutReceiver args) (fun index =>
         let* wrapped_value :=
           CallBuiltin_ShadowRealmGetWrappedValue caller_context
             target_context (AtIndex args index) in
         StoreFixedArrayElement (length (heap s)) (index + 1)
           wrapped_value) in
     let* result :=
       ScopedExceptionHandler
         (CallVarargs Call target_context target (ActualArgumentsCount args)
            (length (heap s)))
         (fun var_exception =>
            ThrowTypeError context kCallShadowRealmFunctionThrown
              var_exception) in
     let* wrapped_result :=
       CallBuiltin_ShadowRealmGetWrappedValue caller_context caller_context
         result in
     Return wrapped_result)
      (with_scratch_array (ActualArgumentsCount args) s).
Proof.
  unfold CallWrappedFunction.
  unfold Bind at 1. unfold PerformStackCheck. rewrite stack_ok.
  unfold Bind at 1. unfold LoadWrappedTargetFunction.
  rewrite wrapped_function_cell.
  unfold Bind at 1. unfold LoadWrappedContext.
  rewrite wrapped_function_cell, target_realm.
  unfold Bind at 1. unfold AllocateFixedArray, Allocate.
  unfold Bind at 1.
  set (n := ActualArgumentsCount args).
  set (s' := set_heap _ s).
  assert (heap s' !! length (heap s)
          = Some (FixedArray (replicate n (Smi 0)))) as Ha.
  { subst s'. simpl. by apply list_lookup_middle. }
  pose proof (FillFixedArrayWithValue_all _ (Root kUndefinedValue) _ _ Ha)
    as Hfill.
  rewrite length_replicate in Hfill. rewrite Hfill.
  assert (with_array (length (heap s)) (replicate n (Root kUndefinedValue)) s'
          = with_scratch_array n s) as ->; [|done].
  subst s'. unfold with_array, with_scratch_array, set_heap. simpl.
  f_equal.
  rewrite insert_app_r_alt by lia. by rewrite Nat.sub_diag.
Qed.

Lemma scratch_array_cell :
  heap (with_scratch_array (ActualArgumentsCount args) s) !! length (heap s)
  = Some (FixedArray (replicate (ActualArgumentsCount args)
                        (Root kUndefinedValue))).
Proof. simpl. by apply list_lookup_middle. Qed.

Lemma filled_array (wrapped_receiver : Object) (wrapped : list Object) :
  length wrapped = length (arguments args) ->
  list_inserts 1 wrapped
    (<[0 := wrapped_receiver]>
       (replicate (ActualArgumentsCount args) (Root kUndefinedValue)))
  = wrapped_receiver :: wrapped.
Proof.
  intros Hlen. unfold ActualArgumentsCount. cbn [replicate].
  change (<[0 := wrapped_receiver]> (?x :: ?l)) with (wrapped_receiver :: l).
  rewrite list_inserts_cons. f_equal.
  rewrite <- (app_nil_r wrapped) at 1.
  by rewrite list_inserts_0_l by by rewrite length_replicate.
Qed.

(** When every wrap succeeds the scratch array holds what [wrap_each]
    computes for the receiver followed by the arguments, and the trampoline
    goes on to the call. *)
Lemma CallWrappedFunction_marshalled (wrapped : list Object)
    (s1 : Isolate) :
  wrap_each caller_context target_context
    (GetReceiver args :: arguments args)
    (with_scratch_array (ActualArgumentsCount args) s)
  = (Normal wrapped, s1) ->
  CallWrappedFunction GetFunctionRealm Call context wrapped_function args s
  = (let* result :=
       ScopedExceptionHandler
         (CallVarargs Call target_context target (ActualArgumentsCount args)
            (length (heap s)))
         (fun var_exception =>
            ThrowTypeError context kCallShadowRealmFunctionThrown
              var_exception) in
     let* wrapped_result :=
       CallBuiltin_ShadowRealmGetWrappedValue caller_context caller_context
         result in
     Return wrapped_result)
      (with_array (length (heap s)) wrapped s1).
Proof.
  rewrite CallWrappedFunction_prologue, wrap_each_cons.
  pose proof scratch_array_cell as Ha.
  set (s0 := with_scratch_array _ s) in *.
  unfold Bind at 1.
  destruct (CallBuiltin_extends caller_context target_context
              (GetReceiver args) s0) as [cells Hs'].
  destruct (CallBuiltin_ShadowRealmGetWrappedValue _ _ (GetReceiver args) s0)
    as [[w|e|r] s'] eqn:Hreceiver; simpl in Hs'; [|done|done].
  assert (heap s' !! length (heap s)
          = Some (FixedArray (replicate (ActualArgumentsCount args)
                                (Root kUndefinedValue)))) as Ha'.
  { subst s'. simpl. by apply lookup_app_l_Some. }
  unfold Bind at 1.
  rewrite (StoreFixedArrayElement_array _ _ _ _ _ Ha').
  unfold Bind at 1. unfold BuildFastLoop, GetLengthWithoutReceiver.
  rewrite Nat.sub_0_r.
  pose proof (marshal_loop caller_context target_context args
                (length (heap s)) _ (arguments args) []
                (<[0 := w]> (replicate (ActualArgumentsCount args)
                               (Root kUndefinedValue))) s' eq_refl Ha')
    as Hloop.
  destruct (wrap_each _ _ (arguments args) s') as [[ws|e|r] s2] eqn:Hrest;
    [|done|done].
  intros [= <- <-].
  cbn [length] in Hloop. rewrite Hloop.
  apply wrap_each_Normal in Hrest as [Hlen _].
  by rewrite filled_array.
Qed.

(** When a wrap throws, the trampoline is left with that exception, before
    the call. *)
Lemma CallWrappedFunction_marshal_throws (exception : Object)
    (s1 : Isolate) :
  wrap_each caller_context target_context
    (GetReceiver args :: arguments args)
    (with_scratch_array (ActualArgumentsCount args) s)
  = (Throw exception, s1) ->
  exists es,
    CallWrappedFunction GetFunctionRealm Call context wrapped_function args s
    = (Throw exception, with_array (length (heap s)) es s1).
Proof.
  rewrite CallWrappedFunction_prologue, wrap_each_cons.
  pose proof scratch_array_cell as Ha.
  set (s0 := with_scratch_array _ s) in *.
  unfold Bind at 1.
  destruct (CallBuiltin_extends caller_context target_context
              (GetReceiver args) s0) as [cells Hs'].
  destruct (CallBuiltin_ShadowRealmGetWrappedValue _ _ (GetReceiver args) s0)
    as [[w|e|r] s'] eqn:Hreceiver; simpl in Hs'; [| |done].
  2:{ intros [= <- <-]. eexists. rewrite with_array_id; [done|].
      subst s'. simpl. by apply lookup_app_l_Some. }
  assert (heap s' !! length (heap s)
          = Some (FixedArray (replicate (ActualArgumentsCount args)
                                (Root kUndefinedValue)))) as Ha'.
  { subst s'. simpl. by apply lookup_app_l_Some. }
  unfold Bind at 1.
  rewrite (StoreFixedArrayElement_array _ _ _ _ _ Ha').
  unfold Bind at 1. unfold BuildFastLoop, GetLengthWithoutReceiver.
  rewrite Nat.sub_0_r.
  pose proof (marshal_loop caller_context target_context args
                (length (heap s)) _ (arguments args) []
                (<[0 := w]> (replicate (ActualArgumentsCount args)
                               (Root kUndefinedValue))) s' eq_refl Ha')
    as Hloop.
  destruct (wrap_each _ _ (arguments args) s') as [[ws|e|r] s2] eqn:Hrest;
    [done| |done].
  intros [= <- <-].
  cbn [length] in Hloop. destruct Hloop as [es' ->]. by exists es'.
Qed.

Lemma CallVarargs_array (length_ : nat) (es : list Object)
    (s1 : Isolate) :
  heap s1 !! length (heap s) = Some (FixedArray es) ->
  length es = length_ ->
  CallVarargs Call target_context target length_ (length (heap s)) s1
  = (match fst (Call target_context target es (heap s1)) with
     | Returns value => Normal value
     | Throws exception => Throw exception
     end,
     mkIsolate (snd (Call target_context target es (heap s1)))
       (stack_overflow s1)
       (trace s1 ++ [EvCall target_context target es])).
Proof.
  intros Ha Hlen. unfold CallVarargs. rewrite Ha.
  rewrite take_ge by lia.
  by destruct (Call target_context target es (heap s1)) as [[v|e] h'].
Qed.

Lemma marshalled_state (wrapped : list Object) (s1 : Isolate) :
  wrap_each caller_context target_context
    (GetReceiver args :: arguments args)
    (with_scratch_array (ActualArgumentsCount args) s)
  = (Normal wrapped, s1) ->
  length wrapped = ActualArgumentsCount args
  /\ heap (with_array (length (heap s)) wrapped s1) !! length (heap s)
     = Some (FixedArray wrapped)
  /\ stack_overflow s1 = false
  /\ trace s1
     = trace s ++ map (EvGetWrappedValue caller_context target_context)
                    (GetReceiver args :: arguments args).
Proof.
  intros Hm. apply wrap_each_Normal in Hm as [Hlen [cells ->]].
  split_and!; [done| |done|done].
  apply with_array_lookup. simpl. rewrite !length_app. simpl. lia.
Qed.

(** The target returns: its result goes through the builtin once more, with
    the caller context as both realm arguments. *)
Lemma CallWrappedFunction_returns (wrapped : list Object) (s1 : Isolate)
    (result : Object) (h2 : list HeapCell) :
  wrap_each caller_context target_context
    (GetReceiver args :: arguments args)
    (with_scratch_array (ActualArgumentsCount args) s)
  = (Normal wrapped, s1) ->
  Call target_context target wrapped
    (heap (with_array (length (heap s)) wrapped s1))
  = (Returns result, h2) ->
  CallWrappedFunction GetFunctionRealm Call context wrapped_function args s
  = ShadowRealmGetWrappedValue caller_context caller_context result
      (mkIsolate h2 false
         (trace s
          ++ map (EvGetWrappedValue caller_context target_context)
               (GetReceiver args :: arguments args)
          ++ [EvCall target_context target wrapped;
              EvGetWrappedValue caller_context caller_context result])).
Proof.
  intros Hm Hcall.
  rewrite (CallWrappedFunction_marshalled _ _ Hm).
  destruct (marshalled_state _ _ Hm) as (Hlen & Ha & Hstack & Htrace).
  unfold Bind at 1. unfold ScopedExceptionHandler.
  rewrite (CallVarargs_array _ wrapped) by done.
  rewrite Hcall. cbn [fst snd].
  unfold Bind. rewrite CallBuiltin_unfold.
  unfold log_event. cbn [heap stack_overflow trace with_array set_heap].
  rewrite Hstack, Htrace, <- !app_assoc. cbn [app].
  by destruct (ShadowRealmGetWrappedValue _ _ result _) as [[v|e|r] s'].
Qed.

(** The target throws: the handler throws a new TypeError made in
    [context]. *)
Lemma CallWrappedFunction_throws (wrapped : list Object) (s1 : Isolate)
    (exception : Object) (h2 : list HeapCell) :
  wrap_each caller_context target_context
    (GetReceiver args :: arguments args)
    (with_scratch_array (ActualArgumentsCount args) s)
  = (Normal wrapped, s1) ->
  Call target_context target wrapped
    (heap (with_array (length (heap s)) wrapped s1))
  = (Throws exception, h2) ->
  CallWrappedFunction GetFunctionRealm Call context wrapped_function args s
  = (Throw (HeapObject (length h2)),
     mkIsolate
       (h2 ++ [JSError kTypeError context kCallShadowRealmFunctionThrown
                 None])
       false
       (trace s
        ++ map (EvGetWrappedValue caller_context target_context)
             (GetReceiver args :: arguments args)
        ++ [EvCall target_context target wrapped])).
Proof.
  intros Hm Hcall.
  rewrite (CallWrappedFunction_marshalled _ _ Hm).
  destruct (marshalled_state _ _ Hm) as (Hlen & Ha & Hstack & Htrace).
  unfold Bind at 1. unfold ScopedExceptionHandler.
  rewrite (CallVarargs_array _ wrapped) by done.
  rewrite Hcall. cbn [fst snd].
  unfold ThrowTypeError, set_heap.
  cbn [heap stack_overflow trace with_array set_heap MessageTemplate_argument].
  by rewrite Hstack, Htrace, <- !app_assoc.
Qed.

End TrampolineSteps.

(** ** Reading traces *)

Lemma before_call_wraps (context creation_context : Context)
    (values : list Object) (call : Event) (rest : list Event) :
  is_EvCall call = true ->
  before_call (map (EvGetWrappedValue context creation_context) values
               ++ call :: rest)
  = map (EvGetWrappedValue context creation_context) values.
Proof.
  intros Hcall. induction values as [|v values IH]; simpl.
  - by rewrite Hcall.
  - by rewrite IH.
Qed.

Lemma after_call_wraps (context creation_context : Context)
    (values : list Object) (call : Event) (rest : list Event) :
  is_EvCall call = true ->
  after_call (map (EvGetWrappedValue context creation_context) values
              ++ call :: rest)
  = rest.
Proof.
  intros Hcall. induction values as [|v values IH]; simpl.
  - by rewrite Hcall.
  - by rewrite IH.
Qed.

Lemma count_wraps_map (context creation_context : Context)
    (values : list Object) :
  count_wraps (map (EvGetWrappedValue context creation_context) values)
  = length values.
Proof.
  unfold count_wraps. induction values as [|v values IH]; simpl; [done|].
  by rewrite IH.
Qed.

Lemma wrap_trace (context creation_context : Context) (value : Object)
    (s : Isolate) :
  trace (snd (ShadowRealmGetWrappedValue context creation_context value s))
  = trace s.
Proof.
  by destruct (wrap_extends context creation_context value s) as [cells ->].
Qed.

Lemma wrap_no_Abort (context creation_context : Context) (value : Object)
    (s : Isolate) (reason : AbortReason) :
  fst (ShadowRealmGetWrappedValue context creation_context value s)
  <> Abort reason.
Proof.
  by destruct (wrap_outcomes context creation_context value s)
    as [-> | [[_ ->] | ->]].
Qed.

(** ** Properties of the call trampoline *)

(** C1. The error of a throwing target is made in the context the
    trampoline is entered in, not in the realm of the wrapped function.
    The wrapped function at address 1 has context field 1 and is called in
    context 9, and its target throws the object at address 2.  The
    trampoline throws exactly one new TypeError with the template
    [kCallShadowRealmFunctionThrown], which carries nothing of the target's
    exception; but the realm of that error is 9, whereas the source notes
    that exception objects made after the realms are resolved belong to the
    caller realm (the context field of the wrapped function, here 1), which
    is also the realm the [kNotCallable] errors of the same activation are
    made in. *)
Theorem C1_error_is_made_in_the_entry_context :
  LoadWrappedContext (HeapObject 1) sample_isolate
  = (Normal 1, sample_isolate)
  /\ CallWrappedFunction realm_two (call_throws (HeapObject 2)) 9
       (HeapObject 1)
       (mkArguments (Root kUndefinedValue) [Smi 4; HeapObject 0])
       sample_isolate
     = (Throw (HeapObject 5),
        mkIsolate
          [JSReceiver true; JSWrappedFunction (HeapObject 0) (Some 1);
           JSReceiver false;
           FixedArray [Root kUndefinedValue; Smi 4; HeapObject 4];
           JSWrappedFunction (HeapObject 0) (Some 2);
           JSError kTypeError 9 kCallShadowRealmFunctionThrown None]
          false
          [EvGetWrappedValue 1 2 (Root kUndefinedValue);
           EvGetWrappedValue 1 2 (Smi 4);
           EvGetWrappedValue 1 2 (HeapObject 0);
           EvCall 2 (HeapObject 0)
             [Root kUndefinedValue; Smi 4; HeapObject 4]]).
Proof. split; reflexivity. Qed.

(** C3. Let [w] be a wrapped function with target [f] and context field
    [R1], and let the realm resolved for [f] be [R2].  The trampoline wraps
    the receiver and then each argument, in index order, with realm
    arguments [(R1, R2)] (this is [wrap_each], and the trace shows the
    order); it calls [f] in [R2] with exactly the wrapped values, the
    receiver first; and what it returns is the builtin applied to the result
    of [f] with realm arguments [(R1, R1)]. *)
Theorem C3_call_round_trip
    (GetFunctionRealm : Context -> Object -> list HeapCell -> option Context)
    (Call : Context -> Object -> list Object -> list HeapCell
            -> CallResult * list HeapCell)
    (context R1 R2 : Context) (w f : Object) (args : CodeStubArguments)
    (s s1 : Isolate) (wrapped : list Object) (result : Object)
    (h2 : list HeapCell) :
  stack_overflow s = false ->
  LoadCell (heap s) w = Some (JSWrappedFunction f (Some R1)) ->
  GetFunctionRealm R1 f (heap s) = Some R2 ->
  wrap_each R1 R2 (GetReceiver args :: arguments args)
    (with_scratch_array (ActualArgumentsCount args) s)
  = (Normal wrapped, s1) ->
  Call R2 f wrapped (heap (with_array (length (heap s)) wrapped s1))
  = (Returns result, h2) ->
  CallWrappedFunction GetFunctionRealm Call context w args s
  = ShadowRealmGetWrappedValue R1 R1 result
      (mkIsolate h2 false
         (trace s
          ++ map (EvGetWrappedValue R1 R2)
               (GetReceiver args :: arguments args)
          ++ [EvCall R2 f wrapped; EvGetWrappedValue R1 R1 result]))
  /\ length wrapped = S (length (arguments args)).
Proof.
  intros Hstack Hw Hrealm Hm Hcall. split.
  - by eapply CallWrappedFunction_returns.
  - by apply wrap_each_Normal in Hm as [-> _].
Qed.

Lemma C3_witness :
  CallWrappedFunction realm_two (call_returns (HeapObject 0)) 1
    (HeapObject 1) (mkArguments (Root kUndefinedValue) [Smi 4; HeapObject 1])
    sample_isolate
  = (Normal (HeapObject 5),
     mkIsolate
       [JSReceiver true; JSWrappedFunction (HeapObject 0) (Some 1);
        JSReceiver false;
        FixedArray [Root kUndefinedValue; Smi 4; HeapObject 4];
        JSWrappedFunction (HeapObject 0) (Some 2);
        JSWrappedFunction (HeapObject 0) (Some 1)]
       false
       [EvGetWrappedValue 1 2 (Root kUndefinedValue);
        EvGetWrappedValue 1 2 (Smi 4);
        EvGetWrappedValue 1 2 (HeapObject 1);
        EvCall 2 (HeapObject 0) [Root kUndefinedValue; Smi 4; HeapObject 4];
        EvGetWrappedValue 1 1 (HeapObject 0)]).
Proof.
  refine (proj1 (C3_call_round_trip realm_two (call_returns (HeapObject 0))
                   1 1 2 (HeapObject 1) (HeapObject 0)
                   (mkArguments (Root kUndefinedValue)
                      [Smi 4; HeapObject 1])
                   sample_isolate _ _ (HeapObject 0) _
                   eq_refl eq_refl eq_refl eq_refl eq_refl)).
Defined.

(** C5. Wrapping an object that is not callable throws a new TypeError with
    the template [kNotCallable], whatever the realm arguments.  When such an
    object is the receiver or an argument of a call through a wrapped
    function, the trampoline throws a [kNotCallable] TypeError (made in the
    context field of the wrapped function), not the error of a failed call,
    and the trace holds wrap events only: the target is not called. *)
Theorem C5_non_callable_is_rejected
    (GetFunctionRealm : Context -> Object -> list HeapCell -> option Context)
    (Call : Context -> Object -> list Object -> list HeapCell
            -> CallResult * list HeapCell)
    (value : Object) (s : Isolate) :
  IsJSReceiver (heap s) value = true ->
  IsCallable (heap s) value = false ->
  (forall context creation_context,
      ShadowRealmGetWrappedValue context creation_context value s
      = (Throw (HeapObject (length (heap s))),
         set_heap (heap s ++ [JSError kTypeError context kNotCallable
                                (Some value)]) s))
  /\ (forall context caller_context target_context wrapped_function target
             args,
        stack_overflow s = false ->
        LoadCell (heap s) wrapped_function
        = Some (JSWrappedFunction target (Some caller_context)) ->
        GetFunctionRealm caller_context target (heap s)
        = Some target_context ->
        value ∈ GetReceiver args :: arguments args ->
        exists e s' rejected k,
          CallWrappedFunction GetFunctionRealm Call context
            wrapped_function args s
          = (Throw (HeapObject e), s')
          /\ heap s' !! e
             = Some (JSError kTypeError caller_context kNotCallable
                       (Some rejected))
          /\ heap s !! e = None
          /\ trace s'
             = trace s
               ++ map (EvGetWrappedValue caller_context target_context)
                    (take (S k) (GetReceiver args :: arguments args))
          /\ (GetReceiver args :: arguments args) !! k = Some rejected).
Proof.
  intros Hr Hc. split.
  { intros context creation_context. by apply wrap_not_callable. }
  intros context caller_context target_context wrapped_function target args
    Hstack Hw Hrealm Hin.
  set (s0 := with_scratch_array (ActualArgumentsCount args) s).
  destruct (non_callable_app _
              [FixedArray (replicate (ActualArgumentsCount args)
                             (Root kUndefinedValue))] _ Hr Hc)
    as [Hr0 Hc0].
  destruct (wrap_each_rejects caller_context target_context _ value s0
              Hin Hr0 Hc0) as (exception & s1 & Hm).
  destruct (CallWrappedFunction_marshal_throws GetFunctionRealm Call context
              caller_context target_context wrapped_function target args s
              Hstack Hw Hrealm exception s1 Hm) as [es Hrun].
  apply wrap_each_Throw in Hm as (cells & rejected & k & -> & -> & Hk).
  eexists (length (heap s0 ++ cells)), _, rejected, k.
  split; [exact Hrun|].
  subst s0. cbn [heap with_scratch_array with_array set_heap trace].
  rewrite !length_app. cbn [length].
  split_and!; [| |done|done].
  - rewrite list_lookup_insert_ne by lia.
    rewrite (app_assoc (heap s ++ _) cells).
    apply list_lookup_middle. rewrite !length_app. simpl. lia.
  - apply lookup_ge_None. lia.
Qed.

Lemma C5_witness :
  exists e s',
    CallWrappedFunction realm_two (call_returns (Smi 0)) 1 (HeapObject 1)
      (mkArguments (Root kUndefinedValue) [Smi 4; HeapObject 2])
      sample_isolate
    = (Throw (HeapObject e), s')
    /\ exists rejected,
         heap s' !! e = Some (JSError kTypeError 1 kNotCallable
                                (Some rejected)).
Proof.
  destruct (C5_non_callable_is_rejected realm_two (call_returns (Smi 0))
              (HeapObject 2) sample_isolate eq_refl eq_refl) as [_ Hinvoke].
  assert (HeapObject 2
          ∈ [Root kUndefinedValue; Smi 4; HeapObject 2]) as Hin.
  { apply list_elem_of_In. simpl. tauto. }
  destruct (Hinvoke 1 1 2 (HeapObject 1) (HeapObject 0)
              (mkArguments (Root kUndefinedValue) [Smi 4; HeapObject 2])
              eq_refl eq_refl eq_refl Hin)
    as (e & s' & rejected & k & Hrun & Hcell & _).
  exists e, s'. split; [exact Hrun|]. by exists rejected.
Defined.

Lemma CallWrappedFunction_stack_overflow
    (GetFunctionRealm : Context -> Object -> list HeapCell -> option Context)
    (Call : Context -> Object -> list Object -> list HeapCell
            -> CallResult * list HeapCell)
    (context : Context) (wrapped_function : Object)
    (args : CodeStubArguments) (s : Isolate) :
  stack_overflow s = true ->
  CallWrappedFunction GetFunctionRealm Call context wrapped_function args s
  = (Throw (HeapObject (length (heap s))),
     mkIsolate
       (heap s ++ [JSError kRangeError context kStackOverflow None])
       true (trace s)).
Proof.
  intros Hstack. unfold CallWrappedFunction.
  unfold Bind at 1. unfold PerformStackCheck, set_heap.
  by rewrite Hstack.
Qed.

(** C7. The stack check comes first.  When the stack limit is exceeded the
    trampoline throws the stack-overflow error made in its context; this
    holds for every wrapped function, every realm resolution and every
    target, none of which is consulted: the heap gains the error object
    only, and the trace gains no event, so no value is wrapped and the
    target is not called. *)
Theorem C7_stack_check_comes_first
    (GetFunctionRealm : Context -> Object -> list HeapCell -> option Context)
    (Call : Context -> Object -> list Object -> list HeapCell
            -> CallResult * list HeapCell)
    (context : Context) (wrapped_function : Object)
    (args : CodeStubArguments) (s : Isolate) :
  stack_overflow s = true ->
  CallWrappedFunction GetFunctionRealm Call context wrapped_function args s
  = (Throw (HeapObject (length (heap s))),
     mkIsolate
       (heap s ++ [JSError kRangeError context kStackOverflow None])
       true (trace s)).
Proof. apply CallWrappedFunction_stack_overflow. Qed.

Lemma C7_witness :
  CallWrappedFunction realm_two (call_returns (Smi 0)) 1 (HeapObject 1)
    (mkArguments (Root kUndefinedValue) [HeapObject 0])
    (mkIsolate (heap sample_isolate) true [])
  = (Throw (HeapObject 3),
     mkIsolate
       (heap sample_isolate ++ [JSError kRangeError 1 kStackOverflow None])
       true []).
Proof.
  apply (C7_stack_check_comes_first realm_two (call_returns (Smi 0)) 1
           (HeapObject 1) (mkArguments (Root kUndefinedValue) [HeapObject 0])
           (mkIsolate (heap sample_isolate) true [])).
  reflexivity.
Defined.

(** C8, as stated, fails: with two arguments the builtin is entered three
    times before the call (once for the receiver, once for each argument),
    not four times. *)
Lemma C8_counterexample :
  count_wraps
    (before_call
       (new_events sample_isolate
          (snd (CallWrappedFunction realm_two (call_returns (Smi 0)) 1
                  (HeapObject 1)
                  (mkArguments (Root kUndefinedValue) [Smi 4; Smi 5])
                  sample_isolate))))
  = 3
  /\ count_wraps
       (before_call
          (new_events sample_isolate
             (snd (CallWrappedFunction realm_two (call_returns (Smi 0)) 1
                     (HeapObject 1)
                     (mkArguments (Root kUndefinedValue) [Smi 4; Smi 5])
                     sample_isolate))))
     <> 2 * length [Smi 4; Smi 5].
Proof. split; [reflexivity|discriminate]. Qed.

(** C8, amended. In a call through a wrapped function with [n] arguments in
    which every wrap succeeds and the target returns, the builtin is entered
    once for the receiver and once for each argument before the call
    ([n + 1] times), and once after it, for the result. *)
Theorem C8_one_wrap_per_value
    (GetFunctionRealm : Context -> Object -> list HeapCell -> option Context)
    (Call : Context -> Object -> list Object -> list HeapCell
            -> CallResult * list HeapCell)
    (context R1 R2 : Context) (w f : Object) (args : CodeStubArguments)
    (s s1 : Isolate) (wrapped : list Object) (result : Object)
    (h2 : list HeapCell) :
  stack_overflow s = false ->
  LoadCell (heap s) w = Some (JSWrappedFunction f (Some R1)) ->
  GetFunctionRealm R1 f (heap s) = Some R2 ->
  wrap_each R1 R2 (GetReceiver args :: arguments args)
    (with_scratch_array (ActualArgumentsCount args) s)
  = (Normal wrapped, s1) ->
  Call R2 f wrapped (heap (with_array (length (heap s)) wrapped s1))
  = (Returns result, h2) ->
  let s' := snd (CallWrappedFunction GetFunctionRealm Call context w args s)
  in
  new_events s s'
  = map (EvGetWrappedValue R1 R2) (GetReceiver args :: arguments args)
    ++ [EvCall R2 f wrapped; EvGetWrappedValue R1 R1 result]
  /\ count_wraps (before_call (new_events s s'))
     = S (length (arguments args))
  /\ count_wraps (after_call (new_events s s')) = 1.
Proof.
  intros Hstack Hw Hrealm Hm Hcall s'.
  assert (new_events s s'
          = map (EvGetWrappedValue R1 R2)
              (GetReceiver args :: arguments args)
            ++ [EvCall R2 f wrapped; EvGetWrappedValue R1 R1 result])
    as Hevents.
  { subst s'. unfold new_events.
    rewrite (CallWrappedFunction_returns GetFunctionRealm Call context R1 R2
               w f args s Hstack Hw Hrealm wrapped s1 result h2 Hm Hcall).
    rewrite wrap_trace. cbn [trace]. by rewrite drop_app_length. }
  rewrite Hevents. split_and!; [done| |].
  - rewrite before_call_wraps by done. by rewrite count_wraps_map.
  - by rewrite after_call_wraps.
Qed.

Lemma C8_witness :
  count_wraps
    (before_call
       (new_events sample_isolate
          (snd (CallWrappedFunction realm_two (call_returns (Smi 0)) 1
                  (HeapObject 1)
                  (mkArguments (Root kUndefinedValue) [Smi 4; HeapObject 0])
                  sample_isolate))))
  = 3
  /\ count_wraps
       (after_call
          (new_events sample_isolate
             (snd (CallWrappedFunction realm_two (call_returns (Smi 0)) 1
                     (HeapObject 1)
                     (mkArguments (Root kUndefinedValue)
                        [Smi 4; HeapObject 0])
                     sample_isolate))))
     = 1.
Proof.
  destruct (C8_one_wrap_per_value realm_two (call_returns (Smi 0)) 1 1 2
              (HeapObject 1) (HeapObject 0)
              (mkArguments (Root kUndefinedValue) [Smi 4; HeapObject 0])
              sample_isolate _ _ (Smi 0) _
              eq_refl eq_refl eq_refl eq_refl eq_refl)
    as (_ & Hbefore & Hafter).
  split; [exact Hbefore|exact Hafter].
Defined.

Lemma CallWrappedFunction_no_Abort
    (GetFunctionRealm : Context -> Object -> list HeapCell -> option Context)
    (Call : Context -> Object -> list Object -> list HeapCell
            -> CallResult * list HeapCell)
    (context caller_context target_context : Context)
    (wrapped_function target : Object) (args : CodeStubArguments)
    (s : Isolate) (reason : AbortReason) :
  LoadCell (heap s) wrapped_function
  = Some (JSWrappedFunction target (Some caller_context)) ->
  GetFunctionRealm caller_context target (heap s) = Some target_context ->
  fst (CallWrappedFunction GetFunctionRealm Call context wrapped_function
         args s) <> Abort reason.
Proof.
  intros Hw Hrealm.
  destruct (stack_overflow s) eqn:Hstack.
  { by rewrite CallWrappedFunction_stack_overflow. }
  pose proof (wrap_each_no_Abort caller_context target_context
                (GetReceiver args :: arguments args)) as Hno.
  destruct (wrap_each caller_context target_context
              (GetReceiver args :: arguments args)
              (with_scratch_array (ActualArgumentsCount args) s))
    as [[wrapped|e|r] s1] eqn:Hm.
  - destruct (Call target_context target wrapped
                (heap (with_array (length (heap s)) wrapped s1)))
      as [[result|e] h2] eqn:Hcall.
    + rewrite (CallWrappedFunction_returns GetFunctionRealm Call context
                 caller_context target_context wrapped_function target args
                 s Hstack Hw Hrealm wrapped s1 result h2 Hm Hcall).
      apply wrap_no_Abort.
    + by rewrite (CallWrappedFunction_throws GetFunctionRealm Call context
                    caller_context target_context wrapped_function target
                    args s Hstack Hw Hrealm wrapped s1 e h2 Hm Hcall).
  - destruct (CallWrappedFunction_marshal_throws GetFunctionRealm Call
                context caller_context target_context wrapped_function
                target args s Hstack Hw Hrealm e s1 Hm) as [es ->].
    done.
  - exfalso. eapply Hno. by rewrite Hm.
Qed.

(** C9. With the realm resolution of the spec, a wrapped function whose
    target is callable never takes the not-callable branch: the resolution
    yields a realm and the trampoline does not abort.  And whatever the
    resolution, when that branch is taken the trampoline aborts at once and
    leaves the isolate as it was: nothing is thrown and no error object is
    made. *)
Theorem C9_not_callable_branch_is_unreachable
    (ownerRealmOf : Object -> Context)
    (GetFunctionRealm : Context -> Object -> list HeapCell -> option Context)
    (Call : Context -> Object -> list Object -> list HeapCell
            -> CallResult * list HeapCell)
    (context caller_context : Context) (wrapped_function target : Object)
    (args : CodeStubArguments) (s : Isolate) :
  LoadCell (heap s) wrapped_function
  = Some (JSWrappedFunction target (Some caller_context)) ->
  (IsCallable (heap s) target = true ->
   GetFunctionRealm_spec ownerRealmOf caller_context target (heap s)
   = Some (ownerRealmOf target)
   /\ forall reason,
        fst (CallWrappedFunction (GetFunctionRealm_spec ownerRealmOf) Call
               context wrapped_function args s) <> Abort reason)
  /\ (stack_overflow s = false ->
      GetFunctionRealm caller_context target (heap s) = None ->
      CallWrappedFunction GetFunctionRealm Call context wrapped_function
        args s
      = (Abort kUnreachable, s)).
Proof.
  intros Hw. split.
  - intros Hc.
    assert (GetFunctionRealm_spec ownerRealmOf caller_context target (heap s)
            = Some (ownerRealmOf target)) as Hrealm.
    { unfold GetFunctionRealm_spec. by rewrite Hc. }
    split; [done|]. intros reason.
    by eapply CallWrappedFunction_no_Abort.
  - intros Hstack Hnone. unfold CallWrappedFunction.
    unfold Bind at 1. unfold PerformStackCheck. rewrite Hstack.
    unfold Bind at 1. unfold LoadWrappedTargetFunction. rewrite Hw.
    unfold Bind at 1. unfold LoadWrappedContext. rewrite Hw.
    by rewrite Hnone.
Qed.

Lemma C9_witness :
  IsCallable (heap sample_isolate) (HeapObject 0) = true
  /\ fst (CallWrappedFunction (GetFunctionRealm_spec (fun _ => 2))
            (call_returns (Smi 0)) 1 (HeapObject 1)
            (mkArguments (Root kUndefinedValue) [Smi 4]) sample_isolate)
     <> Abort kUnreachable.
Proof.
  split; [reflexivity|].
  destruct (C9_not_callable_branch_is_unreachable (fun _ => 2) realm_two
              (call_returns (Smi 0)) 1 1 (HeapObject 1) (HeapObject 0)
              (mkArguments (Root kUndefinedValue) [Smi 4]) sample_isolate
              eq_refl) as [Hreach _].
  exact (proj2 (Hreach eq_refl) kUnreachable).
Defined.

(** * Further properties of the two builtins *)

(** ** Valid values under allocation *)

Lemma IsValid_app (h l : list HeapCell) (value : Object) :
  IsValid h value -> IsValid (h ++ l) value.
Proof.
  destruct value as [z|r|a]; simpl; try done.
  rewrite length_app. lia.
Qed.

Lemma LoadCell_app_valid (h l : list HeapCell) (value : Object) :
  IsValid h value -> LoadCell (h ++ l) value = LoadCell h value.
Proof.
  destruct value as [z|r|a]; simpl; try done.
  intros Ha. by apply lookup_app_l.
Qed.

Lemma predicates_app_valid (h l : list HeapCell) (value : Object) :
  IsValid h value ->
  IsJSReceiver (h ++ l) value = IsJSReceiver h value
  /\ IsCallable (h ++ l) value = IsCallable h value
  /\ effective_target (h ++ l) value = effective_target h value.
Proof.
  intros Hv. unfold IsJSReceiver, IsCallable, effective_target.
  by rewrite (LoadCell_app_valid _ l _ Hv).
Qed.

Lemma IsPrimitive_app_valid (h l : list HeapCell) (value : Object) :
  IsValid h value -> IsPrimitive (h ++ l) value = IsPrimitive h value.
Proof.
  intros Hv. unfold IsPrimitive.
  by destruct (predicates_app_valid h l value Hv) as (-> & _ & _).
Qed.

Lemma IsNonCallableObject_app_valid (h l : list HeapCell) (value : Object) :
  IsValid h value ->
  IsNonCallableObject (h ++ l) value = IsNonCallableObject h value.
Proof.
  intros Hv. unfold IsNonCallableObject.
  by destruct (predicates_app_valid h l value Hv) as (-> & -> & _).
Qed.

Lemma Forall_IsValid_app (h l : list HeapCell) (values : list Object) :
  Forall (IsValid h) values -> Forall (IsValid (h ++ l)) values.
Proof.
  intros Hall. eapply Forall_impl; [exact Hall|].
  intros v. apply IsValid_app.
Qed.

Lemma LoadCell_app_None (h l : list HeapCell) (value : Object) :
  LoadCell (h ++ l) value = None -> LoadCell h value = None.
Proof.
  destruct value as [z|r|a]; simpl; try done.
  intros Ha. apply lookup_ge_None. apply lookup_ge_None in Ha.
  rewrite length_app in Ha. lia.
Qed.

(** ** What the builtin leaves alone *)

(** X3. The builtin never changes an object that exists: the heap after it
    is the heap before followed by at most one new cell.  Nothing is
    allocated exactly for primitives; the stack state and the trace are left
    as they were. *)
Theorem X3_wrap_only_appends (context creation_context : Context)
    (value : Object) (s : Isolate) :
  exists cells,
    snd (ShadowRealmGetWrappedValue context creation_context value s)
    = set_heap (heap s ++ cells) s
    /\ length cells <= 1
    /\ (cells = [] <-> IsPrimitive (heap s) value = true).
Proof.
  unfold IsPrimitive.
  destruct (TaggedIsSmi value) eqn:Hsmi.
  { exists []. rewrite wrap_primitive by by left. simpl.
    split_and!; [|lia|done].
    unfold set_heap. rewrite app_nil_r. by destruct s. }
  destruct (IsJSReceiver (heap s) value) eqn:Hr.
  2:{ exists []. rewrite wrap_primitive by by right. simpl.
      split_and!; [|lia|done].
      unfold set_heap. rewrite app_nil_r. by destruct s. }
  destruct (IsCallable (heap s) value) eqn:Hc.
  - eexists [_]. rewrite wrap_callable by done. simpl.
    split_and!; [done|lia|]. by split.
  - eexists [_]. rewrite wrap_not_callable by done. simpl.
    split_and!; [done|lia|]. by split.
Qed.

(** ** Marshalling, value by value *)

Lemma wrap_each_marshalled (callerRealm targetRealm : Context)
    (values wrapped : list Object) (s s1 : Isolate)
    (h l : list HeapCell) :
  heap s = h ++ l ->
  Forall (IsValid h) values ->
  wrap_each callerRealm targetRealm values s = (Normal wrapped, s1) ->
  Forall2 (marshalled h (heap s1) targetRealm) values wrapped.
Proof.
  revert wrapped s l.
  induction values as [|value rest IH]; intros wrapped s l Hheap Hvalid.
  { simpl. intros [= <- <-]. constructor. }
  apply Forall_cons in Hvalid as [Hv Hrest].
  destruct (predicates_app_valid h l value Hv) as (Hr & Hc & Ht).
  rewrite wrap_each_cons, CallBuiltin_unfold.
  set (sl := log_event _ s).
  assert (heap sl = h ++ l) as Hsl by done.
  destruct (TaggedIsSmi value || negb (IsJSReceiver h value)) eqn:Hprim.
  - rewrite wrap_primitive.
    2:{ rewrite Hsl, Hr. apply orb_true_iff in Hprim as [?|?]; [by left|].
        right. by apply negb_true_iff. }
    destruct (wrap_each _ _ rest sl) as [[ws|e|r] s2] eqn:Hws;
      try discriminate.
    intros [= <- <-]. constructor; [by left|].
    by eapply IH.
  - apply orb_false_iff in Hprim as [Hsmi Hrecv].
    apply negb_false_iff in Hrecv.
    destruct (IsCallable h value) eqn:Hcall.
    + rewrite wrap_callable by by rewrite Hsl, Hc.
      rewrite Hsl, Ht.
      set (s' := set_heap _ sl).
      destruct (wrap_each _ _ rest s') as [[ws|e|r] s2] eqn:Hws;
        try discriminate.
      intros [= <- <-].
      destruct (wrap_each_Normal _ _ _ _ _ _ Hws) as [_ [cells Hs2]].
      constructor.
      * right. split_and!; [done| |].
        -- simpl. apply lookup_ge_None. rewrite length_app. lia.
        -- rewrite Hs2. simpl. apply lookup_app_l_Some.
           by apply list_lookup_middle.
      * apply (IH ws s' (l ++ [JSWrappedFunction (effective_target h value)
                                 (Some targetRealm)])); [|done|done].
        subst s'. simpl. by rewrite <- app_assoc.
    + rewrite wrap_not_callable; [done| |]; by rewrite Hsl, ?Hr, ?Hc.
Qed.

Lemma wrap_each_first_rejected (callerRealm targetRealm : Context)
    (values : list Object) (s : Isolate) (h l : list HeapCell) (k : nat)
    (rejected : Object) :
  heap s = h ++ l ->
  Forall (IsValid h) values ->
  values !! k = Some rejected ->
  IsNonCallableObject h rejected = true ->
  (forall j value, j < k -> values !! j = Some value ->
                   IsNonCallableObject h value = false) ->
  exists cells,
    wrap_each callerRealm targetRealm values s
    = (Throw (HeapObject (length (heap s ++ cells))),
       mkIsolate
         (heap s ++ cells
          ++ [JSError kTypeError callerRealm kNotCallable (Some rejected)])
         (stack_overflow s)
         (trace s
          ++ map (EvGetWrappedValue callerRealm targetRealm)
               (take (S k) values))).
Proof.
  revert s l k.
  induction values as [|value rest IH];
    intros s l k Hheap Hvalid Hk Hrej Hfirst; [done|].
  apply Forall_cons in Hvalid as [Hv Hrest].
  rewrite wrap_each_cons.
  destruct k as [|k].
  - injection Hk as ->.
    rewrite <- (IsNonCallableObject_app_valid h l _ Hv), <- Hheap in Hrej.
    apply andb_true_iff in Hrej as [Hr Hc]. apply negb_true_iff in Hc.
    rewrite CallBuiltin_unfold, wrap_not_callable by done.
    exists []. by rewrite app_nil_r.
  - assert (IsNonCallableObject (heap s) value = false) as Hok.
    { rewrite Hheap, IsNonCallableObject_app_valid by done.
      apply (Hfirst 0); [lia|done]. }
    destruct (CallBuiltin_outcomes callerRealm targetRealm value s)
      as [[w Hw] | (Hr & Hc & _)].
    2:{ unfold IsNonCallableObject in Hok. by rewrite Hr, Hc in Hok. }
    destruct (CallBuiltin_extends callerRealm targetRealm value s)
      as [cells Hs'].
    destruct (CallBuiltin_ShadowRealmGetWrappedValue _ _ value s)
      as [c s']; simpl in Hw, Hs'; subst c s'.
    destruct (IH (mkIsolate (heap s ++ cells) (stack_overflow s)
                    (trace s
                     ++ [EvGetWrappedValue callerRealm targetRealm value]))
                (l ++ cells) k) as [cells' ->]; try done.
    { simpl. by rewrite Hheap, app_assoc. }
    { intros j v Hj Hjv. apply (Hfirst (S j)); [lia|done]. }
    exists (cells ++ cells'). simpl.
    by rewrite <- !app_assoc.
Qed.

(** ** The trampoline on either side of the call *)

Lemma scratch_prefix (argc : nat) (wrapped : list Object) (s s1 : Isolate)
    (cells : list HeapCell) :
  heap s1 = heap (with_scratch_array argc s) ++ cells ->
  take (length (heap s)) (heap (with_array (length (heap s)) wrapped s1))
  = heap s.
Proof.
  intros Hs1. simpl. rewrite Hs1. simpl.
  rewrite <- app_assoc, insert_app_r_alt, take_app_length by lia.
  done.
Qed.

Lemma CallWrappedFunction_marshal_throws_cell
    (GetFunctionRealm : Context -> Object -> list HeapCell -> option Context)
    (Call : Context -> Object -> list Object -> list HeapCell
            -> CallResult * list HeapCell)
    (context caller_context target_context : Context)
    (wrapped_function target : Object) (args : CodeStubArguments)
    (s : Isolate) (cells : list HeapCell) (cell : HeapCell)
    (events : list Event) :
  stack_overflow s = false ->
  LoadCell (heap s) wrapped_function
  = Some (JSWrappedFunction target (Some caller_context)) ->
  GetFunctionRealm caller_context target (heap s) = Some target_context ->
  wrap_each caller_context target_context
    (GetReceiver args :: arguments args)
    (with_scratch_array (ActualArgumentsCount args) s)
  = (Throw (HeapObject
              (length (heap (with_scratch_array (ActualArgumentsCount args)
                               s) ++ cells))),
     mkIsolate
       (heap (with_scratch_array (ActualArgumentsCount args) s)
        ++ cells ++ [cell])
       false events) ->
  exists e s',
    CallWrappedFunction GetFunctionRealm Call context wrapped_function args s
    = (Throw (HeapObject e), s')
    /\ heap s' !! e = Some cell
    /\ heap s !! e = None
    /\ trace s' = events
    /\ take (length (heap s)) (heap s') = heap s.
Proof.
  intros Hstack Hw Hrealm Hm.
  destruct (CallWrappedFunction_marshal_throws GetFunctionRealm Call context
              caller_context target_context wrapped_function target args s
              Hstack Hw Hrealm _ _ Hm) as [es Hrun].
  do 2 eexists. split; [exact Hrun|].
  cbn [heap with_scratch_array with_array set_heap trace].
  rewrite !length_app. cbn [length].
  split_and!; [| |done|].
  - rewrite list_lookup_insert_ne by lia.
    rewrite (app_assoc (heap s ++ _) cells).
    apply list_lookup_middle. rewrite !length_app. simpl. lia.
  - apply lookup_ge_None. lia.
  - rewrite <- app_assoc, insert_app_r_alt, take_app_length by lia.
    done.
Qed.

Lemma CallWrappedFunction_call_event
    (GetFunctionRealm : Context -> Object -> list HeapCell -> option Context)
    (Call : Context -> Object -> list Object -> list HeapCell
            -> CallResult * list HeapCell)
    (context caller_context target_context : Context)
    (wrapped_function target : Object) (args : CodeStubArguments)
    (s s1 : Isolate) (wrapped : list Object) :
  stack_overflow s = false ->
  LoadCell (heap s) wrapped_function
  = Some (JSWrappedFunction target (Some caller_context)) ->
  GetFunctionRealm caller_context target (heap s) = Some target_context ->
  wrap_each caller_context target_context
    (GetReceiver args :: arguments args)
    (with_scratch_array (ActualArgumentsCount args) s)
  = (Normal wrapped, s1) ->
  exists rest,
    trace (snd (CallWrappedFunction GetFunctionRealm Call context
                  wrapped_function args s))
    = trace s
      ++ map (EvGetWrappedValue caller_context target_context)
           (GetReceiver args :: arguments args)
      ++ EvCall target_context target wrapped :: rest
    /\ count_calls rest = 0.
Proof.
  intros Hstack Hw Hrealm Hm.
  destruct (Call target_context target wrapped
              (heap (with_array (length (heap s)) wrapped s1)))
    as [[result|e] h2] eqn:Hcall.
  - rewrite (CallWrappedFunction_returns GetFunctionRealm Call context
               caller_context target_context wrapped_function target args
               s Hstack Hw Hrealm wrapped s1 result h2 Hm Hcall).
    rewrite wrap_trace. cbn [trace]. by eexists [_].
  - rewrite (CallWrappedFunction_throws GetFunctionRealm Call context
               caller_context target_context wrapped_function target
               args s Hstack Hw Hrealm wrapped s1 e h2 Hm Hcall).
    by exists [].
Qed.

(** X1. When the target returns an object that is not callable, the
    trampoline throws a [kNotCallable] TypeError made in the context field
    of the wrapped function.  The wrap of the result is outside the
    exception handler of the call: the error is not replaced by the
    [kCallShadowRealmFunctionThrown] error, and the target has run. *)
Theorem X1_non_callable_result_is_rejected
    (GetFunctionRealm : Context -> Object -> list HeapCell -> option Context)
    (Call : Context -> Object -> list Object -> list HeapCell
            -> CallResult * list HeapCell)
    (context caller_context target_context : Context)
    (wrapped_function target : Object) (args : CodeStubArguments)
    (s s1 : Isolate) (wrapped : list Object) (result : Object)
    (h2 : list HeapCell) :
  stack_overflow s = false ->
  LoadCell (heap s) wrapped_function
  = Some (JSWrappedFunction target (Some caller_context)) ->
  GetFunctionRealm caller_context target (heap s) = Some target_context ->
  wrap_each caller_context target_context
    (GetReceiver args :: arguments args)
    (with_scratch_array (ActualArgumentsCount args) s)
  = (Normal wrapped, s1) ->
  Call target_context target wrapped
    (heap (with_array (length (heap s)) wrapped s1))
  = (Returns result, h2) ->
  IsNonCallableObject h2 result = true ->
  CallWrappedFunction GetFunctionRealm Call context wrapped_function args s
  = (Throw (HeapObject (length h2)),
     mkIsolate
       (h2 ++ [JSError kTypeError caller_context kNotCallable (Some result)])
       false
       (trace s
        ++ map (EvGetWrappedValue caller_context target_context)
             (GetReceiver args :: arguments args)
        ++ [EvCall target_context target wrapped;
            EvGetWrappedValue caller_context caller_context result])).
Proof.
  intros Hstack Hw Hrealm Hm Hcall Hrej.
  apply andb_true_iff in Hrej as [Hr Hc]. apply negb_true_iff in Hc.
  rewrite (CallWrappedFunction_returns GetFunctionRealm Call context
             caller_context target_context wrapped_function target args
             s Hstack Hw Hrealm wrapped s1 result h2 Hm Hcall).
  by rewrite wrap_not_callable.
Qed.

Lemma X1_witness :
  CallWrappedFunction realm_two (call_returns (HeapObject 2)) 9
    (HeapObject 1) (mkArguments (Root kUndefinedValue) [Smi 4])
    sample_isolate
  = (Throw (HeapObject 4),
     mkIsolate
       [JSReceiver true; JSWrappedFunction (HeapObject 0) (Some 1);
        JSReceiver false; FixedArray [Root kUndefinedValue; Smi 4];
        JSError kTypeError 1 kNotCallable (Some (HeapObject 2))]
       false
       [EvGetWrappedValue 1 2 (Root kUndefinedValue);
        EvGetWrappedValue 1 2 (Smi 4);
        EvCall 2 (HeapObject 0) [Root kUndefinedValue; Smi 4];
        EvGetWrappedValue 1 1 (HeapObject 2)]).
Proof.
  refine (X1_non_callable_result_is_rejected realm_two
            (call_returns (HeapObject 2)) 9 1 2 (HeapObject 1)
            (HeapObject 0) (mkArguments (Root kUndefinedValue) [Smi 4])
            sample_isolate _ _ (HeapObject 2) _
            eq_refl eq_refl eq_refl eq_refl eq_refl eq_refl).
Defined.

(** X2. When the target returns a callable, the trampoline returns a newly
    allocated wrapped function whose context field is the context field of
    the wrapped function that was called, and whose target is the result
    itself, or the target of the result when the result is a wrapped
    function.  When the target returns a primitive, the trampoline returns
    it as it is and leaves the heap as the target left it. *)
Theorem X2_result_is_wrapped_for_the_caller
    (GetFunctionRealm : Context -> Object -> list HeapCell -> option Context)
    (Call : Context -> Object -> list Object -> list HeapCell
            -> CallResult * list HeapCell)
    (context caller_context target_context : Context)
    (wrapped_function target : Object) (args : CodeStubArguments)
    (s s1 : Isolate) (wrapped : list Object) (result : Object)
    (h2 : list HeapCell) :
  stack_overflow s = false ->
  LoadCell (heap s) wrapped_function
  = Some (JSWrappedFunction target (Some caller_context)) ->
  GetFunctionRealm caller_context target (heap s) = Some target_context ->
  wrap_each caller_context target_context
    (GetReceiver args :: arguments args)
    (with_scratch_array (ActualArgumentsCount args) s)
  = (Normal wrapped, s1) ->
  Call target_context target wrapped
    (heap (with_array (length (heap s)) wrapped s1))
  = (Returns result, h2) ->
  (IsCallable h2 result = true ->
   fst (CallWrappedFunction GetFunctionRealm Call context wrapped_function
          args s) = Normal (HeapObject (length h2))
   /\ heap (snd (CallWrappedFunction GetFunctionRealm Call context
                   wrapped_function args s))
      = h2 ++ [JSWrappedFunction (effective_target h2 result)
                 (Some caller_context)])
  /\ (IsPrimitive h2 result = true ->
      fst (CallWrappedFunction GetFunctionRealm Call context
             wrapped_function args s) = Normal result
      /\ heap (snd (CallWrappedFunction GetFunctionRealm Call context
                      wrapped_function args s)) = h2).
Proof.
  intros Hstack Hw Hrealm Hm Hcall.
  rewrite (CallWrappedFunction_returns GetFunctionRealm Call context
             caller_context target_context wrapped_function target args
             s Hstack Hw Hrealm wrapped s1 result h2 Hm Hcall).
  split.
  - intros Hc. by rewrite wrap_callable.
  - intros Hp. rewrite wrap_primitive; [done|].
    apply orb_true_iff in Hp as [?|?]; [by left|right].
    by apply negb_true_iff.
Qed.

Lemma X2_witness :
  fst (CallWrappedFunction realm_two (call_returns (HeapObject 1)) 9
         (HeapObject 1) (mkArguments (Root kUndefinedValue) [Smi 4])
         sample_isolate)
  = Normal (HeapObject 4)
  /\ heap (snd (CallWrappedFunction realm_two (call_returns (HeapObject 1)) 9
                  (HeapObject 1) (mkArguments (Root kUndefinedValue) [Smi 4])
                  sample_isolate))
     = [JSReceiver true; JSWrappedFunction (HeapObject 0) (Some 1);
        JSReceiver false; FixedArray [Root kUndefinedValue; Smi 4];
        JSWrappedFunction (HeapObject 0) (Some 1)].
Proof.
  refine (proj1 (X2_result_is_wrapped_for_the_caller realm_two
                   (call_returns (HeapObject 1)) 9 1 2 (HeapObject 1)
                   (HeapObject 0)
                   (mkArguments (Root kUndefinedValue) [Smi 4])
                   sample_isolate _ _ (HeapObject 1) _
                   eq_refl eq_refl eq_refl eq_refl eq_refl) eq_refl).
Defined.

Lemma marshalled_with_array (h h' : list HeapCell) (realm : Context)
    (array : Address) (es0 es : list Object) (value wrapped : Object) :
  h' !! array = Some (FixedArray es0) ->
  marshalled h h' realm value wrapped ->
  marshalled h (<[array := FixedArray es]> h') realm value wrapped.
Proof.
  intros Ha [Hp | (Hc & Hfresh & Hcell)]; [by left|right].
  split_and!; [done|done|].
  apply LoadCell_Some_lt in Hcell as (a & -> & Hcell & _). simpl.
  rewrite list_lookup_insert_ne; [done|]. congruence.
Qed.

(** X5. What the target is called with.  When every wrap succeeds, the
    target is called with one value for the receiver and one for each
    argument, in order: a primitive of the caller is passed as it is, and a
    callable of the caller is passed as a wrapped function allocated by this
    call, whose context field is the realm of the target and whose target is
    the callable (or the target of the callable when that is a wrapped
    function).  Every object that existed when the trampoline was entered is
    unchanged in the heap the target runs on. *)
Theorem X5_target_receives_marshalled_values
    (GetFunctionRealm : Context -> Object -> list HeapCell -> option Context)
    (Call : Context -> Object -> list Object -> list HeapCell
            -> CallResult * list HeapCell)
    (context caller_context target_context : Context)
    (wrapped_function target : Object) (args : CodeStubArguments)
    (s s1 : Isolate) (wrapped : list Object) :
  stack_overflow s = false ->
  LoadCell (heap s) wrapped_function
  = Some (JSWrappedFunction target (Some caller_context)) ->
  GetFunctionRealm caller_context target (heap s) = Some target_context ->
  Forall (IsValid (heap s)) (GetReceiver args :: arguments args) ->
  wrap_each caller_context target_context
    (GetReceiver args :: arguments args)
    (with_scratch_array (ActualArgumentsCount args) s)
  = (Normal wrapped, s1) ->
  (exists rest,
      trace (snd (CallWrappedFunction GetFunctionRealm Call context
                    wrapped_function args s))
      = trace s
        ++ map (EvGetWrappedValue caller_context target_context)
             (GetReceiver args :: arguments args)
        ++ EvCall target_context target wrapped :: rest)
  /\ Forall2
       (marshalled (heap s)
          (heap (with_array (length (heap s)) wrapped s1)) target_context)
       (GetReceiver args :: arguments args) wrapped
  /\ take (length (heap s))
       (heap (with_array (length (heap s)) wrapped s1))
     = heap s.
Proof.
  intros Hstack Hw Hrealm Hvalid Hm.
  destruct (wrap_each_Normal _ _ _ _ _ _ Hm) as [_ [cells Hs1]].
  split_and!.
  - destruct (CallWrappedFunction_call_event GetFunctionRealm Call context
                caller_context target_context wrapped_function target args
                s s1 wrapped Hstack Hw Hrealm Hm) as (rest & Htrace & _).
    by exists rest.
  - pose proof (wrap_each_marshalled caller_context target_context _ _
                  (with_scratch_array (ActualArgumentsCount args) s) _
                  (heap s) _ eq_refl Hvalid Hm) as Hall.
    eapply Forall2_impl; [exact Hall|].
    intros v w Hvw. cbn [heap with_array set_heap].
    eapply marshalled_with_array; [|done].
    rewrite Hs1. cbn [heap with_scratch_array set_heap].
    apply lookup_app_l_Some. by apply list_lookup_middle.
  - eapply scratch_prefix. by rewrite Hs1.
Qed.

Lemma X5_witness :
  Forall2
    (marshalled (heap sample_isolate)
       [JSReceiver true; JSWrappedFunction (HeapObject 0) (Some 1);
        JSReceiver false;
        FixedArray [Root kUndefinedValue; Smi 4; HeapObject 4];
        JSWrappedFunction (HeapObject 0) (Some 2)] 2)
    [Root kUndefinedValue; Smi 4; HeapObject 1]
    [Root kUndefinedValue; Smi 4; HeapObject 4].
Proof.
  assert (Forall (IsValid (heap sample_isolate))
            [Root kUndefinedValue; Smi 4; HeapObject 1]) as Hvalid.
  { repeat constructor. }
  exact (proj1 (proj2 (X5_target_receives_marshalled_values realm_two
                         (call_returns (Smi 0)) 1 1 2 (HeapObject 1)
                         (HeapObject 0)
                         (mkArguments (Root kUndefinedValue)
                            [Smi 4; HeapObject 1])
                         sample_isolate _ _
                         eq_refl eq_refl eq_refl Hvalid eq_refl))).
Defined.

(** X6. Values are wrapped from left to right and the first failure ends
    the call.  When the value at position [k] of the receiver followed by
    the arguments is the first that is an object without a callable map, the
    trampoline throws the [kNotCallable] TypeError for that value, made in
    the context field of the wrapped function, after having entered the
    builtin for positions [0] to [k] and no other: later values are not
    looked at and the target is not called.  Objects that existed are
    unchanged. *)
Theorem X6_first_non_callable_value_is_reported
    (GetFunctionRealm : Context -> Object -> list HeapCell -> option Context)
    (Call : Context -> Object -> list Object -> list HeapCell
            -> CallResult * list HeapCell)
    (context caller_context target_context : Context)
    (wrapped_function target : Object) (args : CodeStubArguments)
    (s : Isolate) (k : nat) (rejected : Object) :
  stack_overflow s = false ->
  LoadCell (heap s) wrapped_function
  = Some (JSWrappedFunction target (Some caller_context)) ->
  GetFunctionRealm caller_context target (heap s) = Some target_context ->
  Forall (IsValid (heap s)) (GetReceiver args :: arguments args) ->
  (GetReceiver args :: arguments args) !! k = Some rejected ->
  IsNonCallableObject (heap s) rejected = true ->
  (forall j value,
      j < k -> (GetReceiver args :: arguments args) !! j = Some value ->
      IsNonCallableObject (heap s) value = false) ->
  exists e s',
    CallWrappedFunction GetFunctionRealm Call context wrapped_function args s
    = (Throw (HeapObject e), s')
    /\ heap s' !! e
       = Some (JSError kTypeError caller_context kNotCallable
                 (Some rejected))
    /\ heap s !! e = None
    /\ trace s'
       = trace s
         ++ map (EvGetWrappedValue caller_context target_context)
              (take (S k) (GetReceiver args :: arguments args))
    /\ take (length (heap s)) (heap s') = heap s.
Proof.
  intros Hstack Hw Hrealm Hvalid Hk Hrej Hfirst.
  destruct (wrap_each_first_rejected caller_context target_context
              (GetReceiver args :: arguments args)
              (with_scratch_array (ActualArgumentsCount args) s)
              (heap s) _ k rejected eq_refl Hvalid Hk Hrej Hfirst)
    as [cells Hm].
  cbn [stack_overflow trace with_scratch_array set_heap] in Hm.
  rewrite Hstack in Hm.
  by eapply CallWrappedFunction_marshal_throws_cell.
Qed.

Lemma X6_witness :
  exists e s',
    CallWrappedFunction realm_two (call_returns (Smi 0)) 9 (HeapObject 1)
      (mkArguments (HeapObject 0) [HeapObject 2; HeapObject 2; Smi 4])
      sample_isolate
    = (Throw (HeapObject e), s')
    /\ heap s' !! e
       = Some (JSError kTypeError 1 kNotCallable (Some (HeapObject 2)))
    /\ trace s'
       = [EvGetWrappedValue 1 2 (HeapObject 0);
          EvGetWrappedValue 1 2 (HeapObject 2)].
Proof.
  assert (Forall (IsValid (heap sample_isolate))
            [HeapObject 0; HeapObject 2; HeapObject 2; Smi 4]) as Hvalid.
  { repeat constructor. }
  assert (forall j value,
             j < 1 ->
             [HeapObject 0; HeapObject 2; HeapObject 2; Smi 4] !! j
             = Some value ->
             IsNonCallableObject (heap sample_isolate) value = false)
    as Hfirst.
  { intros [|j] value Hj; [|lia]. by intros [= <-]. }
  destruct (X6_first_non_callable_value_is_reported realm_two
              (call_returns (Smi 0)) 9 1 2 (HeapObject 1) (HeapObject 0)
              (mkArguments (HeapObject 0)
                 [HeapObject 2; HeapObject 2; Smi 4])
              sample_isolate 1 (HeapObject 2)
              eq_refl eq_refl eq_refl Hvalid eq_refl eq_refl Hfirst)
    as (e & s' & Hrun & Hcell & _ & Htrace & _).
  by exists e, s'.
Defined.

(** ** The errors and the calls of one activation *)

Lemma count_calls_app (l1 l2 : list Event) :
  count_calls (l1 ++ l2) = count_calls l1 + count_calls l2.
Proof. unfold count_calls. by rewrite List.filter_app, length_app. Qed.

Lemma count_calls_wraps (context creation_context : Context)
    (values : list Object) :
  count_calls (map (EvGetWrappedValue context creation_context) values) = 0.
Proof. unfold count_calls. by induction values. Qed.

(** X8. The errors of the trampoline.  Whatever the target does, an
    exception that leaves the trampoline is one of three error objects: the
    stack-overflow RangeError, made in the context of the call; a
    [kNotCallable] TypeError, made in the context field of the wrapped
    function; or the [kCallShadowRealmFunctionThrown] TypeError, made in the
    context of the call.  The object is made by the trampoline.  Either it
    is thrown before the target is called, and then its address was free
    when the trampoline was entered; or it is thrown after the call, and
    then its address was free in the heap the target left, the heap after
    is that heap followed by the error object alone, and it is not the
    exception of the target: an exception of the target is never passed
    on. *)
Theorem X8_only_three_errors_leave_the_trampoline
    (GetFunctionRealm : Context -> Object -> list HeapCell -> option Context)
    (Call : Context -> Object -> list Object -> list HeapCell
            -> CallResult * list HeapCell)
    (context caller_context target_context : Context)
    (wrapped_function target : Object) (args : CodeStubArguments)
    (s s' : Isolate) (exception : Object) :
  LoadCell (heap s) wrapped_function
  = Some (JSWrappedFunction target (Some caller_context)) ->
  GetFunctionRealm caller_context target (heap s) = Some target_context ->
  CallWrappedFunction GetFunctionRealm Call context wrapped_function args s
  = (Throw exception, s') ->
  exists e,
    exception = HeapObject e
    /\ (heap s' !! e = Some (JSError kRangeError context kStackOverflow None)
        \/ (exists value,
               heap s' !! e
               = Some (JSError kTypeError caller_context kNotCallable
                         (Some value)))
        \/ heap s' !! e
           = Some (JSError kTypeError context kCallShadowRealmFunctionThrown
                     None))
    /\ ((heap s !! e = None /\ count_calls (new_events s s') = 0)
        \/ (exists wrapped s1 outcome h2 cell,
               wrap_each caller_context target_context
                 (GetReceiver args :: arguments args)
                 (with_scratch_array (ActualArgumentsCount args) s)
               = (Normal wrapped, s1)
               /\ Call target_context target wrapped
                    (heap (with_array (length (heap s)) wrapped s1))
                  = (outcome, h2)
               /\ e = length h2
               /\ heap s' = h2 ++ [cell]
               /\ forall thrown,
                    outcome = Throws thrown ->
                    IsValid h2 thrown ->
                    exception <> thrown)).
Proof.
  intros Hw Hrealm.
  destruct (stack_overflow s) eqn:Hstack.
  { rewrite CallWrappedFunction_stack_overflow by done.
    intros [= <- <-]. eexists. split; [done|]. split.
    - left. by apply list_lookup_middle.
    - left. split; [by apply lookup_ge_None|].
      unfold new_events. cbn [trace]. by rewrite drop_all. }
  pose proof (wrap_each_no_Abort caller_context target_context
                (GetReceiver args :: arguments args)) as Hno.
  destruct (wrap_each caller_context target_context
              (GetReceiver args :: arguments args)
              (with_scratch_array (ActualArgumentsCount args) s))
    as [[wrapped|ex|r] s1] eqn:Hm.
  - destruct (Call target_context target wrapped
                (heap (with_array (length (heap s)) wrapped s1)))
      as [[result|ex] h2] eqn:Hcall.
    + rewrite (CallWrappedFunction_returns GetFunctionRealm Call context
                 caller_context target_context wrapped_function target args
                 s Hstack Hw Hrealm wrapped s1 result h2 Hm Hcall).
      match goal with
      | |- ShadowRealmGetWrappedValue ?c ?cc ?v ?st = _ -> _ =>
          destruct (wrap_outcomes c cc v st) as [-> | [[_ ->] | ->]]
      end; try discriminate.
      intros [= <- <-]. eexists. split; [done|]. split.
      * right; left. exists result. by apply list_lookup_middle.
      * right. exists wrapped, s1, (Returns result), h2. eexists.
        split_and!; [done|done|done|done|]. by intros thrown [=].
    + rewrite (CallWrappedFunction_throws GetFunctionRealm Call context
                 caller_context target_context wrapped_function target
                 args s Hstack Hw Hrealm wrapped s1 ex h2 Hm Hcall).
      intros [= <- <-]. eexists. split; [done|]. split.
      * right; right. by apply list_lookup_middle.
      * right. exists wrapped, s1, (Throws ex), h2. eexists.
        split_and!; [done|done|done|done|].
        intros thrown [= <-] Hvalid [= <-]. simpl in Hvalid. lia.
  - apply wrap_each_Throw in Hm as Hshape.
    destruct Hshape as (cells & value & k & -> & -> & _).
    cbn [stack_overflow with_scratch_array set_heap] in Hm.
    rewrite Hstack in Hm.
    destruct (CallWrappedFunction_marshal_throws_cell GetFunctionRealm Call
                context caller_context target_context wrapped_function
                target args s cells _ _ Hstack Hw Hrealm Hm)
      as (e & s2 & -> & Hcell & Hfresh & Htrace & _).
    intros [= <- <-]. exists e. split; [done|]. split.
    + right; left. by exists value.
    + left. split; [done|]. unfold new_events. rewrite Htrace.
      cbn [trace with_scratch_array set_heap].
      by rewrite drop_app_length, count_calls_wraps.
  - exfalso. eapply Hno. by rewrite Hm.
Qed.

Lemma X8_witness :
  exists e,
    HeapObject 5 = HeapObject e
    /\ heap (snd (CallWrappedFunction realm_two
                    (call_throws (HeapObject 2)) 9 (HeapObject 1)
                    (mkArguments (Root kUndefinedValue)
                       [Smi 4; HeapObject 0])
                    sample_isolate)) !! e
       = Some (JSError kTypeError 9 kCallShadowRealmFunctionThrown None)
    /\ HeapObject 5 <> HeapObject 2.
Proof.
  destruct (X8_only_three_errors_leave_the_trampoline realm_two
              (call_throws (HeapObject 2)) 9 1 2 (HeapObject 1)
              (HeapObject 0)
              (mkArguments (Root kUndefinedValue) [Smi 4; HeapObject 0])
              sample_isolate _ (HeapObject 5) eq_refl eq_refl eq_refl)
    as (e & He & _ & Hmade).
  exists e. split; [exact He|].
  injection He as <-. split; [reflexivity|].
  destruct Hmade as [[_ Hcount] | (wrapped & s1 & outcome & h2 & cell
                                   & Hm & Hcall & _ & _ & Hne)].
  - vm_compute in Hcount. discriminate Hcount.
  - injection Hm as <- <-. injection Hcall as <- <-.
    apply (Hne (HeapObject 2) eq_refl). simpl. lia.
Defined.

(** X9. The target is called at most once.  It is called exactly once when
    the stack check passes and the wraps of the receiver and of all the
    arguments succeed, and not at all otherwise; a failing target is not
    called again. *)
Theorem X9_target_is_called_at_most_once
    (GetFunctionRealm : Context -> Object -> list HeapCell -> option Context)
    (Call : Context -> Object -> list Object -> list HeapCell
            -> CallResult * list HeapCell)
    (context caller_context target_context : Context)
    (wrapped_function target : Object) (args : CodeStubArguments)
    (s : Isolate) :
  LoadCell (heap s) wrapped_function
  = Some (JSWrappedFunction target (Some caller_context)) ->
  GetFunctionRealm caller_context target (heap s) = Some target_context ->
  count_calls
    (new_events s
       (snd (CallWrappedFunction GetFunctionRealm Call context
               wrapped_function args s)))
  = match stack_overflow s,
          fst (wrap_each caller_context target_context
                 (GetReceiver args :: arguments args)
                 (with_scratch_array (ActualArgumentsCount args) s)) with
    | false, Normal _ => 1
    | _, _ => 0
    end.
Proof.
  intros Hw Hrealm. unfold new_events.
  destruct (stack_overflow s) eqn:Hstack.
  { rewrite CallWrappedFunction_stack_overflow by done.
    cbn [snd trace]. by rewrite drop_all. }
  pose proof (wrap_each_no_Abort caller_context target_context
                (GetReceiver args :: arguments args)) as Hno.
  destruct (wrap_each caller_context target_context
              (GetReceiver args :: arguments args)
              (with_scratch_array (ActualArgumentsCount args) s))
    as [[wrapped|ex|r] s1] eqn:Hm; cbn [fst].
  - destruct (CallWrappedFunction_call_event GetFunctionRealm Call context
                caller_context target_context wrapped_function target args
                s s1 wrapped Hstack Hw Hrealm Hm) as (rest & -> & Hrest).
    rewrite drop_app_length, count_calls_app, count_calls_wraps.
    change (EvCall target_context target wrapped :: rest)
      with ([EvCall target_context target wrapped] ++ rest).
    by rewrite count_calls_app, Hrest.
  - apply wrap_each_Throw in Hm as Hshape.
    destruct Hshape as (cells & value & k & -> & -> & _).
    cbn [stack_overflow with_scratch_array set_heap] in Hm.
    rewrite Hstack in Hm.
    destruct (CallWrappedFunction_marshal_throws_cell GetFunctionRealm Call
                context caller_context target_context wrapped_function
                target args s cells _ _ Hstack Hw Hrealm Hm)
      as (e & s2 & -> & _ & _ & Htrace & _).
    cbn [snd]. rewrite Htrace.
    cbn [trace with_scratch_array set_heap].
    by rewrite drop_app_length, count_calls_wraps.
  - exfalso. eapply Hno. by rewrite Hm.
Qed.

Lemma X9_witness :
  count_calls
    (new_events sample_isolate
       (snd (CallWrappedFunction realm_two (call_throws (Smi 0)) 1
               (HeapObject 1)
               (mkArguments (Root kUndefinedValue) [Smi 4; HeapObject 0])
               sample_isolate)))
  = 1.
Proof.
  exact (X9_target_is_called_at_most_once realm_two (call_throws (Smi 0))
           1 1 2 (HeapObject 1) (HeapObject 0)
           (mkArguments (Root kUndefinedValue) [Smi 4; HeapObject 0])
           sample_isolate eq_refl eq_refl).
Defined.

(** ** The wrapper invariant across a call *)

Lemma wrapper_invariant_with_array (h : list HeapCell) (array : Address)
    (es0 es : list Object) :
  h !! array = Some (FixedArray es0) ->
  wrapper_invariant h ->
  wrapper_invariant (<[array := FixedArray es]> h).
Proof.
  intros Ha Hinv a target ctx Hcell.
  assert (h !! a = Some (JSWrappedFunction target ctx)) as Hcell'.
  { apply list_lookup_insert_Some in Hcell as [(_ & ? & _) | [_ ?]]; done. }
  destruct (Hinv _ _ _ Hcell') as [Hcall Hnw].
  destruct (predicates_with_array h array es0 es target Ha) as (_ & -> & _).
  split; [done|].
  unfold IsJSWrappedFunction in *.
  destruct (LoadCell_with_array h array es0 es target Ha)
    as [-> | [_ ->]]; done.
Qed.

Lemma wrap_each_preserves_invariant (callerRealm targetRealm : Context)
    (values : list Object) (s : Isolate) :
  wrapper_invariant (heap s) ->
  wrapper_invariant (heap (snd (wrap_each callerRealm targetRealm values s))).
Proof.
  revert s. induction values as [|value rest IH]; intros s Hinv; [done|].
  rewrite wrap_each_cons, CallBuiltin_unfold.
  pose proof (wrap_preserves_invariant callerRealm targetRealm value
                (log_event (EvGetWrappedValue callerRealm targetRealm value)
                   s) Hinv) as Hinv'.
  destruct (ShadowRealmGetWrappedValue _ _ value _) as [[w|e|r] s'];
    [|done|done].
  specialize (IH s' Hinv').
  by destruct (wrap_each _ _ rest s') as [[ws|e|r] s2].
Qed.

(** X10. The invariant of wrapped functions (the target of each is a
    callable that is not a wrapped function) is kept by a call through a
    wrapped function, provided the target keeps it: the scratch array, the
    wrapped arguments, the wrapped result and the error objects of the
    trampoline do not break it, whatever the outcome of the call. *)
Theorem X10_trampoline_keeps_the_wrapper_invariant
    (GetFunctionRealm : Context -> Object -> list HeapCell -> option Context)
    (Call : Context -> Object -> list Object -> list HeapCell
            -> CallResult * list HeapCell)
    (context : Context) (wrapped_function : Object)
    (args : CodeStubArguments) (s : Isolate) :
  (forall target_context target pushed h,
      wrapper_invariant h ->
      wrapper_invariant (snd (Call target_context target pushed h))) ->
  wrapper_invariant (heap s) ->
  wrapper_invariant
    (heap (snd (CallWrappedFunction GetFunctionRealm Call context
                  wrapped_function args s))).
Proof.
  intros HCall Hinv.
  destruct (stack_overflow s) eqn:Hstack.
  { rewrite CallWrappedFunction_stack_overflow by done.
    by apply wrapper_invariant_allocate. }
  destruct (LoadCell (heap s) wrapped_function)
    as [[| | | |target [caller_context|]]|] eqn:Hw;
    try (unfold CallWrappedFunction, Bind, PerformStackCheck,
           LoadWrappedTargetFunction, LoadWrappedContext;
         by rewrite Hstack, ?Hw).
  destruct (GetFunctionRealm caller_context target (heap s))
    as [target_context|] eqn:Hrealm.
  2:{ unfold CallWrappedFunction, Bind, PerformStackCheck,
        LoadWrappedTargetFunction, LoadWrappedContext.
      by rewrite Hstack, !Hw, Hrealm. }
  assert (wrapper_invariant
            (heap (with_scratch_array (ActualArgumentsCount args) s)))
    as Hinv0 by by apply wrapper_invariant_allocate.
  pose proof (wrap_each_preserves_invariant caller_context target_context
                (GetReceiver args :: arguments args) _ Hinv0) as Hinv1.
  pose proof (wrap_each_no_Abort caller_context target_context
                (GetReceiver args :: arguments args)) as Hno.
  destruct (wrap_each caller_context target_context
              (GetReceiver args :: arguments args)
              (with_scratch_array (ActualArgumentsCount args) s))
    as [[wrapped|ex|r] s1] eqn:Hm; cbn [snd] in Hinv1.
  - destruct (wrap_each_Normal _ _ _ _ _ _ Hm) as [_ [cells Hs1]].
    assert (wrapper_invariant
              (heap (with_array (length (heap s)) wrapped s1))) as Hinv2.
    { eapply wrapper_invariant_with_array; [|done].
      rewrite Hs1. cbn [heap with_scratch_array set_heap].
      apply lookup_app_l_Some. by apply list_lookup_middle. }
    specialize (HCall target_context target wrapped _ Hinv2).
    destruct (Call target_context target wrapped
                (heap (with_array (length (heap s)) wrapped s1)))
      as [[result|ex] h2] eqn:Hcall; cbn [snd] in HCall.
    + rewrite (CallWrappedFunction_returns GetFunctionRealm Call context
                 caller_context target_context wrapped_function target args
                 s Hstack Hw Hrealm wrapped s1 result h2 Hm Hcall).
      by apply wrap_preserves_invariant.
    + rewrite (CallWrappedFunction_throws GetFunctionRealm Call context
                 caller_context target_context wrapped_function target
                 args s Hstack Hw Hrealm wrapped s1 ex h2 Hm Hcall).
      by apply wrapper_invariant_allocate.
  - destruct (CallWrappedFunction_marshal_throws GetFunctionRealm Call
                context caller_context target_context wrapped_function
                target args s Hstack Hw Hrealm ex s1 Hm) as [es ->].
    apply wrap_each_Throw in Hm as (cells & value & k & _ & Hs1 & _).
    eapply wrapper_invariant_with_array; [|done].
    rewrite Hs1. cbn [heap with_scratch_array set_heap].
    apply lookup_app_l_Some. by apply list_lookup_middle.
  - exfalso. eapply Hno. by rewrite Hm.
Qed.

Lemma sample_isolate_invariant : wrapper_invariant (heap sample_isolate).
Proof.
  intros [|[|[|a]]] target ctx; simpl; try discriminate.
  by intros [= <- <-].
Qed.

Lemma X10_witness :
  wrapper_invariant
    (heap (snd (CallWrappedFunction realm_two (call_returns (HeapObject 1)) 1
                  (HeapObject 1)
                  (mkArguments (Root kUndefinedValue) [Smi 4; HeapObject 1])
                  sample_isolate))).
Proof.
  apply (X10_trampoline_keeps_the_wrapper_invariant realm_two
           (call_returns (HeapObject 1)) 1 (HeapObject 1)
           (mkArguments (Root kUndefinedValue) [Smi 4; HeapObject 1])
           sample_isolate).
  - intros target_context target pushed h Hh. exact Hh.
  - exact sample_isolate_invariant.
Defined.

(** ** Wrapping and calling *)

(** X11. One hop.  However many times a callable that is not a wrapped
    function has been wrapped again, a call through the outermost wrapped
    function calls the callable itself, once, in the realm resolved for it,
    and with the context field of the outermost wrapped function as caller
    context: no inner wrapped function is called on the way. *)
Theorem X11_call_through_a_chain_calls_the_callable
    (GetFunctionRealm : Context -> Object -> list HeapCell -> option Context)
    (Call : Context -> Object -> list Object -> list HeapCell
            -> CallResult * list HeapCell)
    (realms : list (Context * Context)) (final : Context * Context)
    (f : Object) (s s1 : Isolate) (context target_context : Context)
    (args : CodeStubArguments) (wrapped : list Object) :
  last realms = Some final ->
  IsCallable (heap s) f = true ->
  IsJSWrappedFunction (heap s) f = false ->
  stack_overflow (snd (wrap_chain realms f s)) = false ->
  GetFunctionRealm (snd final) f (heap (snd (wrap_chain realms f s)))
  = Some target_context ->
  wrap_each (snd final) target_context (GetReceiver args :: arguments args)
    (with_scratch_array (ActualArgumentsCount args)
       (snd (wrap_chain realms f s)))
  = (Normal wrapped, s1) ->
  exists w rest,
    fst (wrap_chain realms f s) = Normal w
    /\ trace (snd (CallWrappedFunction GetFunctionRealm Call context w args
                     (snd (wrap_chain realms f s))))
       = trace (snd (wrap_chain realms f s))
         ++ map (EvGetWrappedValue (snd final) target_context)
              (GetReceiver args :: arguments args)
         ++ EvCall target_context f wrapped :: rest
    /\ count_calls rest = 0.
Proof.
  intros Hlast Hf Hnw.
  destruct (wrap_chain_target f realms final f s Hlast Hf Hnw Hf)
    as (a & s' & -> & Hcell & _).
  { by apply effective_target_not_wrapped. }
  cbn [fst snd]. intros Hstack Hrealm Hm.
  destruct (CallWrappedFunction_call_event GetFunctionRealm Call context
              (snd final) target_context (HeapObject a) f args s' s1 wrapped
              Hstack Hcell Hrealm Hm) as (rest & Htrace & Hrest).
  by exists (HeapObject a), rest.
Qed.

Lemma X11_witness :
  exists w rest,
    fst (wrap_chain [(1, 2); (2, 3); (3, 1)] (HeapObject 0)
           (mkIsolate [JSReceiver true] false []))
    = Normal w
    /\ trace (snd (CallWrappedFunction realm_two (call_returns (Smi 0)) 1 w
                     (mkArguments (Root kUndefinedValue) [Smi 4])
                     (snd (wrap_chain [(1, 2); (2, 3); (3, 1)] (HeapObject 0)
                             (mkIsolate [JSReceiver true] false [])))))
       = [EvGetWrappedValue 1 2 (Root kUndefinedValue);
          EvGetWrappedValue 1 2 (Smi 4);
          EvCall 2 (HeapObject 0) [Root kUndefinedValue; Smi 4]] ++ rest.
Proof.
  destruct (X11_call_through_a_chain_calls_the_callable realm_two
              (call_returns (Smi 0)) [(1, 2); (2, 3); (3, 1)] (3, 1)
              (HeapObject 0) (mkIsolate [JSReceiver true] false []) _ 1 2
              (mkArguments (Root kUndefinedValue) [Smi 4]) _
              eq_refl eq_refl eq_refl eq_refl eq_refl eq_refl)
    as (w & rest & Hw & Htrace & _).
  by exists w, rest.
Defined.

(** ** The realm arguments and the target of a wrap *)

(** X4. The first realm argument of the builtin is used for the
    [kNotCallable] error only: for every value that is not rejected, the
    result and the isolate after the builtin are the same whatever that
    argument is. *)
Theorem X4_context_only_matters_for_the_error
    (context1 context2 creation_context : Context) (value : Object)
    (s : Isolate) :
  IsNonCallableObject (heap s) value = false ->
  ShadowRealmGetWrappedValue context1 creation_context value s
  = ShadowRealmGetWrappedValue context2 creation_context value s.
Proof.
  unfold IsNonCallableObject. intros Hok.
  destruct (TaggedIsSmi value) eqn:Hsmi.
  { by rewrite !wrap_primitive by by left. }
  destruct (IsJSReceiver (heap s) value) eqn:Hr.
  2:{ by rewrite !wrap_primitive by by right. }
  destruct (IsCallable (heap s) value) eqn:Hc; [|done].
  by rewrite !wrap_callable.
Qed.

Lemma X4_witness :
  IsNonCallableObject (heap sample_isolate) (HeapObject 1) = false
  /\ ShadowRealmGetWrappedValue 1 3 (HeapObject 1) sample_isolate
     = ShadowRealmGetWrappedValue 2 3 (HeapObject 1) sample_isolate.
Proof.
  split; [reflexivity|].
  apply X4_context_only_matters_for_the_error. reflexivity.
Defined.

(** X7. An intermediate wrapped function leaves no mark: wrapping a wrapped
    function gives the same result, and the same isolate, as wrapping its
    target directly, when the target is a callable that is not a wrapped
    function (as the invariant of wrapped functions has it). *)
Theorem X7_wrapping_a_wrapper_is_wrapping_its_target
    (context creation_context : Context) (w target : Object)
    (ctx : option Context) (s : Isolate) :
  wrapper_invariant (heap s) ->
  LoadCell (heap s) w = Some (JSWrappedFunction target ctx) ->
  ShadowRealmGetWrappedValue context creation_context w s
  = ShadowRealmGetWrappedValue context creation_context target s.
Proof.
  intros Hinv Hw.
  assert (IsCallable (heap s) w = true) as Hc.
  { unfold IsCallable. by rewrite Hw. }
  destruct (effective_target_unwrapped _ _ Hinv Hc) as [Htc Htw].
  assert (effective_target (heap s) w = target) as Ht.
  { unfold effective_target. by rewrite Hw. }
  rewrite Ht in Htc, Htw.
  rewrite !wrap_callable by done.
  by rewrite Ht, effective_target_not_wrapped.
Qed.

Lemma X7_witness :
  ShadowRealmGetWrappedValue 1 3 (HeapObject 1) sample_isolate
  = ShadowRealmGetWrappedValue 1 3 (HeapObject 0) sample_isolate.
Proof.
  exact (X7_wrapping_a_wrapper_is_wrapping_its_target 1 3 (HeapObject 1)
           (HeapObject 0) (Some 1) sample_isolate sample_isolate_invariant
           eq_refl).
Defined.
